(** * fonty telemetry ETL: the message pipeline of [src/app.ts]

    A shallow embedding of [processMessage] and [resolveFontSource]
    together with the part of JavaScript they run on: dynamically typed
    values, property reads that throw on [null] and [undefined], the
    order in which [Object.keys] lists properties, [String(...)], and
    exceptions that leave the effects made so far in place. *)

From Stdlib Require Import Strings.Byte Strings.Ascii.
From stdpp Require Import base option list strings pretty sorting.

Open Scope string_scope.
Set Warnings "-register-all".

(** ** Values *)

(** A double.  The program never computes with numbers: it forwards
    them, prints them and tests them for falsiness.  A number is carried
    as the text [Number.prototype.toString] prints for it. *)
Definition number := string.

Inductive JsValue : Type :=
| JUndefined
| JNull
| JBool (b : bool)
| JNum (n : number)
| JStr (s : string)
| JArr (elements : list JsValue)
| JObj (properties : list (string * JsValue))
| JNative (member : string).

(** [JObj] lists the own properties of a plain object in the order they
    were created.  [JNative k] is the member [k] that every plain object
    inherits from [Object.prototype]: a built-in function, or for
    [__proto__] the prototype object itself. *)

Definition Object_prototype : list string :=
  [ "constructor"; "__defineGetter__"; "__defineSetter__"; "hasOwnProperty";
    "__lookupGetter__"; "__lookupSetter__"; "isPrototypeOf";
    "propertyIsEnumerable"; "toString"; "valueOf"; "__proto__";
    "toLocaleString" ].

Definition inherited (k : string) : bool := bool_decide (k ∈ Object_prototype).

Definition native_name (member : string) : string :=
  if String.eqb member "constructor" then "Object" else member.

(** What can be thrown.  [Rejection] carries the value a collaborator's
    promise was rejected with. *)
Inductive Exception : Type :=
| SyntaxError
| TypeError
| Rejection (reason : JsValue).

Inductive Completion (A : Type) : Type :=
| Return (a : A)
| Throw (e : Exception).
Arguments Return {A} a.
Arguments Throw {A} e.

Definition cbind {A B} (c : Completion A) (k : A → Completion B) : Completion B :=
  match c with
  | Return a => k a
  | Throw e => Throw e
  end.

Declare Scope completion_scope.
Delimit Scope completion_scope with completion.
Notation "'let?' x := c 'in' k" := (cbind c (fun x => k))
  (at level 10, x name, c at level 100, k at level 200) : completion_scope.
Open Scope completion_scope.

Fixpoint cmap {A B} (f : A → Completion B) (l : list A) : Completion (list B) :=
  match l with
  | [] => Return []
  | x :: l' => let? y := f x in let? ys := cmap f l' in Return (y :: ys)
  end.

(** ** Property keys *)

Definition digit_value (c : ascii) : option N :=
  let n := Ascii.N_of_ascii c in
  if ((48 <=? n) && (n <=? 57))%N then Some (n - 48)%N else None.

Fixpoint digits_value (acc : N) (s : string) : option N :=
  match s with
  | EmptyString => Some acc
  | String c s' =>
      match digit_value c with
      | Some d => digits_value (10 * acc + d)%N s'
      | None => None
      end
  end.

(** An array index is a key that is the canonical decimal text of an
    integer below 2^32 - 1. *)
Definition array_index (k : string) : option N :=
  match k with
  | EmptyString => None
  | _ =>
      match digits_value 0 k with
      | Some n =>
          if ((n <? 4294967295)%N && String.eqb (pretty n) k) then Some n else None
      | None => None
      end
  end.

Definition index_key (i : nat) : string := pretty i.

Definition is_index (k : string) : bool :=
  match array_index k with Some _ => true | None => false end.

(** ** Own properties *)

Fixpoint lookup_own (k : string) (ps : list (string * JsValue)) : option JsValue :=
  match ps with
  | [] => None
  | (k', v) :: ps' => if String.eqb k' k then Some v else lookup_own k ps'
  end.

(** Assignment keeps the place of a property that exists and creates a
    new one last. *)
Fixpoint define_own (k : string) (v : JsValue) (ps : list (string * JsValue))
  : list (string * JsValue) :=
  match ps with
  | [] => [(k, v)]
  | (k', v') :: ps' =>
      if String.eqb k' k then (k', v) :: ps' else (k', v') :: define_own k v ps'
  end.

(** OrdinaryOwnPropertyKeys: array indices in ascending numeric order,
    then the other keys in the order of their creation. *)
Definition own_keys (ps : list (string * JsValue)) : list string :=
  let ks := ps.*1 in
  (pretty <$> merge_sort N.le (omap array_index ks))
    ++ filter (λ k, is_index k = false) ks.

(** ** Operators and built-ins *)

Definition char_at (s : string) (i : nat) : JsValue :=
  match String.get i s with
  | Some c => JStr (String c EmptyString)
  | None => JUndefined
  end.

(** [v[k]] and [v.k].  Of what arrays, strings and built-ins inherit
    only [length] and a function's [name] are modelled; the program
    reads no other inherited member of those.  A string is indexed by
    the characters of its text, which are its code units for ASCII. *)
Definition get (v : JsValue) (k : string) : Completion JsValue :=
  match v with
  | JUndefined | JNull => Throw TypeError
  | JObj ps =>
      Return (match lookup_own k ps with
              | Some x => x
              | None => if inherited k then JNative k else JUndefined
              end)
  | JArr xs =>
      Return (match array_index k with
              | Some i => default JUndefined (xs !! N.to_nat i)
              | None => if String.eqb k "length" then JNum (pretty (length xs))
                        else JUndefined
              end)
  | JStr s =>
      Return (match array_index k with
              | Some i => char_at s (N.to_nat i)
              | None => if String.eqb k "length" then JNum (pretty (String.length s))
                        else JUndefined
              end)
  | JNative f =>
      Return (if String.eqb k "name" && negb (String.eqb f "__proto__")
              then JStr (native_name f) else JUndefined)
  | JBool _ | JNum _ => Return JUndefined
  end.

(** [k in v]: a [TypeError] unless [v] is an object.  For an array the
    members of [Array.prototype] are left out; the program applies [in]
    to arrays with the key [source_url] only. *)
Definition js_in (k : string) (v : JsValue) : Completion bool :=
  match v with
  | JObj ps => Return (bool_decide (is_Some (lookup_own k ps)) || inherited k)
  | JArr xs =>
      Return (match array_index k with
              | Some i => bool_decide (N.to_nat i < length xs)
              | None => String.eqb k "length" || inherited k
              end)
  | JNative _ => Return (inherited k)
  | _ => Throw TypeError
  end.

(** [v[k] = x] on a plain object; the program assigns to nothing else. *)
Definition set (v : JsValue) (k : string) (x : JsValue) : JsValue :=
  match v with
  | JObj ps => JObj (define_own k x ps)
  | _ => v
  end.

Definition Object_keys (v : JsValue) : Completion (list string) :=
  match v with
  | JUndefined | JNull => Throw TypeError
  | JObj ps => Return (own_keys ps)
  | JArr xs => Return (index_key <$> seq 0 (length xs))
  | JStr s => Return (index_key <$> seq 0 (String.length s))
  | _ => Return []
  end.

Definition is_null (v : JsValue) : bool :=
  match v with JNull => true | _ => false end.

Fixpoint join (sep : string) (parts : list string) : string :=
  match parts with
  | [] => EmptyString
  | [p] => p
  | p :: rest => p ++ sep ++ join sep rest
  end.

(** [String(v)].  A plain object prints through the [toString] it
    inherits; one that has a [toString] property of its own (data, so not
    callable) cannot be converted and [String] throws.  The limit an
    engine puts on the depth of nesting (a [RangeError] on an array
    nested some thousands deep) is not modelled. *)
Fixpoint JS_String (v : JsValue) : Completion string :=
  match v with
  | JUndefined => Return "undefined"
  | JNull => Return "null"
  | JBool b => Return (if b then "true" else "false")
  | JNum n => Return n
  | JStr s => Return s
  | JArr xs =>
      let? parts :=
        cmap (fun x => match x with
                       | JUndefined | JNull => Return EmptyString
                       | _ => JS_String x
                       end) xs in
      Return (join "," parts)
  | JObj ps =>
      match lookup_own "toString" ps with
      | Some _ => Throw TypeError
      | None => Return "[object Object]"
      end
  | JNative f =>
      Return (if String.eqb f "__proto__" then "[object Object]"
              else "function " ++ native_name f ++ "() { [native code] }")
  end.

(** A value used as a property key is converted as [String] does. *)
Definition ToPropertyKey (v : JsValue) : Completion string := JS_String v.

Definition truthy (v : JsValue) : bool :=
  match v with
  | JUndefined | JNull => false
  | JBool b => b
  | JNum n => negb (String.eqb n "0" || String.eqb n "NaN")
  | JStr s => negb (String.eqb s EmptyString)
  | JArr _ | JObj _ | JNative _ => true
  end.

(** [a || b] with [b] a constant. *)
Definition js_or (a b : JsValue) : JsValue := if truthy a then a else b.

(** ** The world the program acts on *)

(** An interface representing a Google PubSub message.  [ack()] and
    [nack()] are effects on the world below. *)
Record PubSubMessage : Type := {
  id : string;
  ackId : string;
  data : list byte;
  attributes : JsValue;
  timestamp : string
}.

(** What [geoip.lookup] finds for an address (of the record the library
    returns, the members the program reads). *)
Record GeoInfo : Type := {
  country : string;
  region : string;
  ll : number * number
}.

(** The result of [geoip.lookup], as the value the program holds:
    [null] when the address is not in the database. *)
Definition js_of_lookup (r : option GeoInfo) : JsValue :=
  match r with
  | None => JNull
  | Some g =>
      JObj [ ("country", JStr (country g));
             ("region", JStr (region g));
             ("ll", JArr [JNum (fst (ll g)); JNum (snd (ll g))]) ]
  end.

(** What the module gets from the runtime and from its imports; none of
    it is code of this repository.
    - [Buffer_toString]: [Buffer.prototype.toString('utf8')];
    - [JSON_parse]: [None] when [JSON.parse] throws its [SyntaxError];
    - [geoip_lookup]: [geoip.lookup] of geoip-lite;
    - [iso3166]: the own properties of the object loaded from
      [data/iso3166-1.json];
    - [axios_get]: the outcome of [axios.get(url)] given the requests made
      before it: the [data] of the response, or a rejection (axios
      rejects on a network error and on a status outside 2xx).  For a
      response with an empty body [data] is the empty string.  The
      outcome is that of a request that settles; the program passes no
      timeout, and a request that never settles has no outcome here. *)
Record Host : Type := {
  Buffer_toString : list byte → string;
  JSON_parse : string → option JsValue;
  geoip_lookup : JsValue → option GeoInfo;
  iso3166 : list (string * JsValue);
  axios_get : list JsValue → JsValue → Completion JsValue
}.

(** The BigQuery client handed to [processMessage]: what
    [dataset(d).table(t).insert(rows)] settles to. *)
Definition BigQuery : Type := string → string → JsValue → Completion unit.

(** [_sourceCache] is a plain object: it is kept as the list of its own
    properties and read with the rules of objects, under which the
    members inherited from [Object.prototype] are properties too. *)
Record World : Type := {
  _sourceCache : list (string * JsValue);  (* own properties of the cache *)
  requests : list JsValue;                 (* axios.get calls, oldest first *)
  inserted : list JsValue;                 (* rows handed to insert *)
  console : list JsValue;                  (* console.log calls *)
  acks : nat                               (* message.ack() calls *)
}.

(** Code that acts on the world and may throw; what was done before a
    throw stays done. *)
Definition M (A : Type) : Type := World → Completion A * World.

Definition ret {A} (a : A) : M A := fun w => (Return a, w).

Definition bind {A B} (m : M A) (k : A → M B) : M B :=
  fun w => match m w with
           | (Return a, w') => k a w'
           | (Throw e, w') => (Throw e, w')
           end.

Definition lift {A} (c : Completion A) : M A := fun w => (c, w).

Definition try_catch {A} (body : M A) (handler : Exception → M A) : M A :=
  fun w => match body w with
           | (Return a, w') => (Return a, w')
           | (Throw e, w') => handler e w'
           end.

Declare Scope action_scope.
Delimit Scope action_scope with action.
Notation "'let!' x := m 'in' k" := (bind m (fun x => k))
  (at level 10, x name, m at level 100, k at level 200) : action_scope.
Notation "m ;; k" := (bind m (fun _ => k))
  (at level 100, k at level 200, right associativity) : action_scope.
Open Scope action_scope.

Definition with_cache (k : string) (v : JsValue) (w : World) : World :=
  {| _sourceCache := define_own k v (_sourceCache w); requests := requests w;
     inserted := inserted w; console := console w; acks := acks w |}.

Definition with_request (url : JsValue) (w : World) : World :=
  {| _sourceCache := _sourceCache w; requests := requests w ++ [url];
     inserted := inserted w; console := console w; acks := acks w |}.

Definition with_rows (rows : JsValue) (w : World) : World :=
  {| _sourceCache := _sourceCache w; requests := requests w;
     inserted := inserted w ++ [rows]; console := console w; acks := acks w |}.

Definition with_log (v : JsValue) (w : World) : World :=
  {| _sourceCache := _sourceCache w; requests := requests w;
     inserted := inserted w; console := console w ++ [v]; acks := acks w |}.

Definition with_ack (w : World) : World :=
  {| _sourceCache := _sourceCache w; requests := requests w;
     inserted := inserted w; console := console w; acks := S (acks w) |}.

Definition cache_store (k : string) (v : JsValue) : M unit :=
  fun w => (Return (), with_cache k v w).

Definition request (host : Host) (url : JsValue) : M JsValue :=
  fun w => (axios_get host (requests w) url, with_request url w).

Definition insert (bigquery : BigQuery) (dataset table : string) (rows : JsValue)
  : M unit :=
  fun w => (bigquery dataset table rows, with_rows rows w).

Definition console_log (v : JsValue) : M unit :=
  fun w => (Return (), with_log v w).

Definition ack : M unit :=
  fun w => (Return (), with_ack w).

(** The value bound by [catch (err)].  An error the engine raised is an
    object with a message and no other data. *)
Definition caught (e : Exception) : JsValue :=
  match e with
  | Rejection reason => reason
  | SyntaxError => JObj [("message", JStr "SyntaxError")]
  | TypeError => JObj [("message", JStr "TypeError")]
  end.

(** The object [_sourceCache] as it is now. *)
Definition sourceCache : M JsValue :=
  fun w => (Return (JObj (_sourceCache w)), w).

(** ** The program *)

(** Function to resolve font source names ([resolveFontSource]).  A
    call is run from its start to its return as one step: the model is
    that of a call with which no other handler interleaves while it
    waits for its request. *)
Definition resolveFontSource (host : Host) (sourceUrl : JsValue) : M JsValue :=
  let! key := lift (ToPropertyKey sourceUrl) in
  let! cache := sourceCache in
  let! cached := lift (js_in key cache) in
  if cached : bool then lift (get cache key)
  else
    try_catch
      (let! res_data := request host sourceUrl in
       let! name := lift (get res_data "name") in
       cache_store key name ;;
       ret name)
      (fun _ => ret JNull).

(** [processMessage], "Resolve font source name": the payload after the
    step. *)
Definition resolveSourceName (host : Host) (payload : JsValue) : M JsValue :=
  if is_null payload then ret payload
  else
    let! has := lift (js_in "source_url" payload) in
    if has : bool then
      let! source_url := lift (get payload "source_url") in
      let! name := resolveFontSource host source_url in
      ret (set payload "source_name" name)
    else ret payload.

(** [v === null ? null : String(v)] *)
Definition null_or_String (v : JsValue) : Completion JsValue :=
  if is_null v then Return JNull
  else let? s := JS_String v in Return (JStr s).

(** [processMessage], "Flatten event data into an array of keys and
    values". *)
Definition flatten (payload : JsValue) : Completion (list JsValue) :=
  if is_null payload then Return []
  else
    let? keys := Object_keys payload in
    cmap (fun key =>
            let? v := get payload key in
            let? value := null_or_String v in
            Return (JObj [("key", JStr key); ("value", value)]))
         keys.

(** [processMessage], "Craft processed data". *)
Definition craft (host : Host) (event geo : JsValue) (eventData : list JsValue)
  : Completion JsValue :=
  let? server_timestamp := get event "server_timestamp" in
  let? timestamp := get event "timestamp" in
  let? geo_country_code := get geo "country" in
  let? code := get geo "country" in
  let? code_key := ToPropertyKey code in
  let? entry := get (JObj (iso3166 host)) code_key in
  let? name := get entry "name" in
  let geo_country := js_or name JNull in
  let? geo_region := get geo "region" in
  let? ll0 := (let? ll := get geo "ll" in get ll "0") in
  let? lat := JS_String ll0 in
  let? ll1 := (let? ll := get geo "ll" in get ll "1") in
  let? lon := JS_String ll1 in
  let? status_code := get event "status_code" in
  let? event_type := get event "event_type" in
  let? execution_time := get event "execution_time" in
  let? fonty_version := get event "fonty_version" in
  let? os_family := get event "os_family" in
  let? os_version := get event "os_version" in
  let? python_version := get event "python_version" in
  Return (JObj [ ("server_timestamp", server_timestamp);
                 ("timestamp", timestamp);
                 ("geo_country_code", geo_country_code);
                 ("geo_country", geo_country);
                 ("geo_region", geo_region);
                 ("geo_coords", JStr (lat ++ ", " ++ lon));
                 ("status_code", status_code);
                 ("event_type", event_type);
                 ("execution_time", execution_time);
                 ("fonty_version", fonty_version);
                 ("os_family", os_family);
                 ("os_version", os_version);
                 ("python_version", python_version);
                 ("event_data", JArr eventData) ]).

(** [err.errors[0].error] *)
Definition first_error (err : JsValue) : Completion JsValue :=
  let? errors := get err "errors" in
  let? first := get errors "0" in
  get first "error".

(** [processMessage], "Store data into BigQuery". *)
Definition store (bigquery : BigQuery) (processed : JsValue) : M unit :=
  try_catch
    (insert bigquery "fonty_telemetry" "events" (JArr [processed]))
    (fun e =>
       let err := caught e in
       let! error := lift (first_error err) in
       console_log error).

(** Function to process incoming messages ([processMessage]). *)
Definition processMessage (host : Host) (message : PubSubMessage)
    (bigquery : BigQuery) : M unit :=
  let! event :=
    lift (match JSON_parse host (Buffer_toString host (data message)) with
          | Some v => Return v
          | None => Throw SyntaxError
          end) in
  let! ip_address := lift (get event "ip_address") in
  let geo := js_of_lookup (geoip_lookup host ip_address) in
  let! payload := lift (get event "data") in
  let! payload := resolveSourceName host payload in
  let! eventData := lift (flatten payload) in
  let! processed := lift (craft host event geo eventData) in
  store bigquery processed ;;
  ack.

(** The steps of [processMessage] that come before "Store data into
    BigQuery", with the record they craft as the result. *)
Definition transform (host : Host) (message : PubSubMessage) : M JsValue :=
  let! event :=
    lift (match JSON_parse host (Buffer_toString host (data message)) with
          | Some v => Return v
          | None => Throw SyntaxError
          end) in
  let! ip_address := lift (get event "ip_address") in
  let geo := js_of_lookup (geoip_lookup host ip_address) in
  let! payload := lift (get event "data") in
  let! payload := resolveSourceName host payload in
  let! eventData := lift (flatten payload) in
  lift (craft host event geo eventData).

(** ** Shapes of values *)

Definition nullish (v : JsValue) : bool :=
  match v with JUndefined | JNull => true | _ => false end.

(** [keeps f m]: running [m] does not change the part [f] of the world,
    whether [m] returns or throws. *)
Definition keeps {A X} (f : World → X) (m : M A) : Prop :=
  ∀ w, f (m w).2 = f w.

Definition scalar (v : JsValue) : bool :=
  match v with
  | JArr _ | JObj _ | JNative _ => false
  | _ => true
  end.

(** An [EventData]: a key and a value that is a string or [null]. *)
Definition flat_entry (e : JsValue) : bool :=
  match e with
  | JObj [ ("key", JStr _); ("value", JStr _) ] => true
  | JObj [ ("key", JStr _); ("value", JNull) ] => true
  | _ => false
  end.

(** The entry the specification asks for under key [k] of a payload
    with own properties [ps]: the key, and the string conversion of the
    value or the [null] marker. *)
Definition entry_for (ps : list (string * JsValue)) (k : string) (e : JsValue)
  : Prop :=
  ∃ v value,
    lookup_own k ps = Some v
    ∧ e = JObj [("key", JStr k); ("value", value)]
    ∧ ((v = JNull ∧ value = JNull)
       ∨ (v ≠ JNull ∧ ∃ s, JS_String v = Return s ∧ value = JStr s)).

(** The members of [IncomingTelemetryEvent] that are copied as they are. *)
Definition passthrough : list string :=
  [ "server_timestamp"; "timestamp"; "status_code"; "event_type";
    "execution_time"; "fonty_version"; "os_family"; "os_version";
    "python_version" ].

(** The members of [ProcessedTelemetryEvent], in the order of the
    interface. *)
Definition processed_members : list string :=
  [ "server_timestamp"; "timestamp"; "geo_country_code"; "geo_country";
    "geo_region"; "geo_coords"; "status_code"; "event_type";
    "execution_time"; "fonty_version"; "os_family"; "os_version";
    "python_version"; "event_data" ].

(** A record of scalars, but for [event_data], which is an array of
    [EventData]. *)
Definition flat_record (v : JsValue) : bool :=
  match v with
  | JObj fields =>
      forallb (fun p => if String.eqb (fst p) "event_data"
                        then match snd p with
                             | JArr entries => forallb flat_entry entries
                             | _ => false
                             end
                        else scalar (snd p)) fields
  | _ => false
  end.

(** [res.data.name] for the outcome of a request.  It throws when the
    request is rejected (network error, status outside 2xx) and when
    [data] is [null]; data without a [name] member, the empty string of
    an empty body included, gives [undefined]. *)
Definition readable_name (outcome : Completion JsValue) : Completion JsValue :=
  let? body := outcome in get body "name".

(** The value of [o.k] for a plain object with own properties [ps] and
    a key that is not inherited. *)
Definition own_or_undefined (ps : list (string * JsValue)) (k : string) : JsValue :=
  default JUndefined (lookup_own k ps).

(** [c] throws nothing but a [TypeError]. *)
Definition only_TypeError {A} (c : Completion A) : Prop :=
  ∀ e, c = Throw e → e = TypeError.

(** Whatever [m] throws satisfies [P]. *)
Definition throws_only {A} (P : Exception → Prop) (m : M A) : Prop :=
  ∀ w e w', m w = (Throw e, w') → P e.

(** [grows w w']: every property of the cache in [w] is a property of
    the cache in [w'], with the same value. *)
Definition grows (w w' : World) : Prop :=
  ∀ k v, lookup_own k (_sourceCache w) = Some v →
         lookup_own k (_sourceCache w') = Some v.

(** ** Sample collaborators and messages *)

Module Sample.

Definition quoted (s : string) : string :=
  String (ascii_of_nat 34) (s ++ String (ascii_of_nat 34) EmptyString).

Definition member (k v : string) : string := quoted k ++ ":" ++ v.

(** [{"ip_address":"10.0.0.1","data":null}] *)
Definition private_text : string :=
  "{" ++ member "ip_address" (quoted "10.0.0.1") ++ ","
      ++ member "data" "null" ++ "}".

(** [{"ip_address":"8.8.8.8","data":{"a":1,"source_url":"http://x/y"}}] *)
Definition foundry_text : string :=
  "{" ++ member "ip_address" (quoted "8.8.8.8") ++ ","
      ++ member "data"
           ("{" ++ member "a" "1" ++ ","
                ++ member "source_url" (quoted "http://x/y") ++ "}")
      ++ "}".

(** [{"ip_address":"8.8.8.8","data":null}] *)
Definition plain_text : string :=
  "{" ++ member "ip_address" (quoted "8.8.8.8") ++ ","
      ++ member "data" "null" ++ "}".

(** [{"ip_address":"185.67.177.1","data":null}] *)
Definition kosovo_text : string :=
  "{" ++ member "ip_address" (quoted "185.67.177.1") ++ ","
      ++ member "data" "null" ++ "}".

(** [{"ip_address":"8.8.8.8"}] *)
Definition no_payload_text : string :=
  "{" ++ member "ip_address" (quoted "8.8.8.8") ++ "}".

(** [{"ip_address":"8.8.8.8","server_timestamp":1519862400,
      "timestamp":"2018-03-01T00:00:00Z","status_code":0,
      "event_type":"install","execution_time":0.53,
      "fonty_version":"0.1.5","os_family":"Darwin","os_version":"17.4.0",
      "python_version":"3.6.4","data":{"font":["Lato",{"weight":400}]}}] *)
Definition full_text : string :=
  "{" ++ member "ip_address" (quoted "8.8.8.8") ++ ","
      ++ member "server_timestamp" "1519862400" ++ ","
      ++ member "timestamp" (quoted "2018-03-01T00:00:00Z") ++ ","
      ++ member "status_code" "0" ++ ","
      ++ member "event_type" (quoted "install") ++ ","
      ++ member "execution_time" "0.53" ++ ","
      ++ member "fonty_version" (quoted "0.1.5") ++ ","
      ++ member "os_family" (quoted "Darwin") ++ ","
      ++ member "os_version" (quoted "17.4.0") ++ ","
      ++ member "python_version" (quoted "3.6.4") ++ ","
      ++ member "data"
           ("{" ++ member "font"
                     ("[" ++ quoted "Lato" ++ ",{" ++ member "weight" "400" ++ "}]")
                ++ "}")
      ++ "}".

(** Not JSON. *)
Definition broken_text : string := "{".

Definition event (ip : string) (payload : list (string * JsValue)) : JsValue :=
  JObj (("ip_address", JStr ip) :: payload).

(** [JSON.parse] on the texts above. *)
Definition parse (text : string) : option JsValue :=
  if String.eqb text private_text then
    Some (event "10.0.0.1" [("data", JNull)])
  else if String.eqb text foundry_text then
    Some (event "8.8.8.8"
            [("data", JObj [ ("a", JNum "1");
                             ("source_url", JStr "http://x/y") ])])
  else if String.eqb text plain_text then
    Some (event "8.8.8.8" [("data", JNull)])
  else if String.eqb text kosovo_text then
    Some (event "185.67.177.1" [("data", JNull)])
  else if String.eqb text no_payload_text then
    Some (event "8.8.8.8" [])
  else if String.eqb text full_text then
    Some (event "8.8.8.8"
            [ ("server_timestamp", JNum "1519862400");
              ("timestamp", JStr "2018-03-01T00:00:00Z");
              ("status_code", JNum "0");
              ("event_type", JStr "install");
              ("execution_time", JNum "0.53");
              ("fonty_version", JStr "0.1.5");
              ("os_family", JStr "Darwin");
              ("os_version", JStr "17.4.0");
              ("python_version", JStr "3.6.4");
              ("data", JObj [ ("font", JArr [ JStr "Lato";
                                              JObj [("weight", JNum "400")] ]) ]) ])
  else None.

(** A database that knows one address in the United States and one in
    Kosovo, whose code [XK] is not an ISO 3166-1 code. *)
Definition lookup (ip : JsValue) : option GeoInfo :=
  match ip with
  | JStr a =>
      if String.eqb a "8.8.8.8" then
        Some {| country := "US"; region := "CA"; ll := ("37.386", "-122.0838") |}
      else if String.eqb a "185.67.177.1" then
        Some {| country := "XK"; region := "01"; ll := ("42.6727", "21.1669") |}
      else None
  | _ => None
  end.

Definition countries : list (string * JsValue) :=
  [ ("US", JObj [("name", JStr "United States of America")]);
    ("DE", JObj [("name", JStr "Germany")]) ].

(** A server with a foundry at [/y], a body without [name] at [/empty],
    and nothing else. *)
Definition fetch (_ : list JsValue) (url : JsValue) : Completion JsValue :=
  match url with
  | JStr u =>
      if String.eqb u "http://x/y" then
        Return (JObj [("name", JStr "Foo Foundry")])
      else if String.eqb u "http://x/empty" then
        Return (JObj [])
      else Throw (Rejection (JObj [("message", JStr "Request failed with status code 404")]))
  | _ => Throw (Rejection (JObj [("message", JStr "Network Error")]))
  end.

Definition host : Host :=
  {| Buffer_toString := String.string_of_list_byte;
     JSON_parse := parse;
     geoip_lookup := lookup;
     iso3166 := countries;
     axios_get := fetch |}.

Definition message (text : string) : PubSubMessage :=
  {| id := "1"; ackId := "a1"; data := String.list_byte_of_string text;
     attributes := JObj []; timestamp := "2018-03-01T00:00:00.000Z" |}.

Definition accepting : BigQuery := fun _ _ _ => Return ().

(** A sink that always rejects, with an error that has no [errors]. *)
Definition unreachable : BigQuery :=
  fun _ _ _ => Throw (Rejection (JObj [("message", JStr "socket hang up")])).

(** A sink that always rejects, with a per-row error. *)
Definition rejecting_rows : BigQuery :=
  fun _ _ rows =>
    Throw (Rejection
             (JObj [ ("name", JStr "PartialFailureError");
                     ("errors", JArr [ JObj [ ("error", JStr "invalid");
                                              ("row", rows) ] ]) ])).

Definition start : World :=
  {| _sourceCache := []; requests := []; inserted := []; console := [];
     acks := 0 |}.

(** The record crafted for [plain_text]. *)
Definition plain_record : JsValue :=
  JObj [ ("server_timestamp", JUndefined);
         ("timestamp", JUndefined);
         ("geo_country_code", JStr "US");
         ("geo_country", JStr "United States of America");
         ("geo_region", JStr "CA");
         ("geo_coords", JStr "37.386, -122.0838");
         ("status_code", JUndefined);
         ("event_type", JUndefined);
         ("execution_time", JUndefined);
         ("fonty_version", JUndefined);
         ("os_family", JUndefined);
         ("os_version", JUndefined);
         ("python_version", JUndefined);
         ("event_data", JArr []) ].

(** The record crafted for [full_text]. *)
Definition full_record : JsValue :=
  JObj [ ("server_timestamp", JNum "1519862400");
         ("timestamp", JStr "2018-03-01T00:00:00Z");
         ("geo_country_code", JStr "US");
         ("geo_country", JStr "United States of America");
         ("geo_region", JStr "CA");
         ("geo_coords", JStr "37.386, -122.0838");
         ("status_code", JNum "0");
         ("event_type", JStr "install");
         ("execution_time", JNum "0.53");
         ("fonty_version", JStr "0.1.5");
         ("os_family", JStr "Darwin");
         ("os_version", JStr "17.4.0");
         ("python_version", JStr "3.6.4");
         ("event_data",
          JArr [ JObj [ ("key", JStr "font");
                        ("value", JStr "Lato,[object Object]") ] ]) ].

(** [{"ip_address":"8.8.8.8","data":{"source_url":{"toString":1}}}] *)
Definition odd_url_text : string :=
  "{" ++ member "ip_address" (quoted "8.8.8.8") ++ ","
      ++ member "data"
           ("{" ++ member "source_url" ("{" ++ member "toString" "1" ++ "}")
                ++ "}")
      ++ "}".

(** [{"ip_address":"8.8.4.4","data":null}] *)
Definition dns_text : string :=
  "{" ++ member "ip_address" (quoted "8.8.4.4") ++ ","
      ++ member "data" "null" ++ "}".

(** [{"ip_address":"8.8.8.8","data":5}] *)
Definition number_payload_text : string :=
  "{" ++ member "ip_address" (quoted "8.8.8.8") ++ ","
      ++ member "data" "5" ++ "}".

(** The JSON text [null]. *)
Definition null_text : string := "null".

(** [{"ip_address":"8.8.8.8","os_version":{"major":17},"data":null}] *)
Definition nested_text : string :=
  "{" ++ member "ip_address" (quoted "8.8.8.8") ++ ","
      ++ member "os_version" ("{" ++ member "major" "17" ++ "}") ++ ","
      ++ member "data" "null" ++ "}".

(** [JSON.parse] on [odd_url_text], [dns_text], [number_payload_text],
    [null_text], [nested_text] and the texts of [parse]. *)
Definition parse_more (text : string) : option JsValue :=
  if String.eqb text odd_url_text then
    Some (event "8.8.8.8"
            [("data", JObj [("source_url", JObj [("toString", JNum "1")])])])
  else if String.eqb text dns_text then
    Some (event "8.8.4.4" [("data", JNull)])
  else if String.eqb text number_payload_text then
    Some (event "8.8.8.8" [("data", JNum "5")])
  else if String.eqb text null_text then
    Some JNull
  else if String.eqb text nested_text then
    Some (event "8.8.8.8"
            [ ("os_version", JObj [("major", JNum "17")]); ("data", JNull) ])
  else parse text.

(** The database of [lookup] with a second address at the same place. *)
Definition lookup_more (ip : JsValue) : option GeoInfo :=
  match ip with
  | JStr a => if String.eqb a "8.8.4.4" then lookup (JStr "8.8.8.8") else lookup ip
  | _ => lookup ip
  end.

Definition host_more : Host :=
  {| Buffer_toString := String.string_of_list_byte;
     JSON_parse := parse_more;
     geoip_lookup := lookup_more;
     iso3166 := countries;
     axios_get := fetch |}.

(** The record crafted for [foundry_text]. *)
Definition foundry_record : JsValue :=
  JObj [ ("server_timestamp", JUndefined);
         ("timestamp", JUndefined);
         ("geo_country_code", JStr "US");
         ("geo_country", JStr "United States of America");
         ("geo_region", JStr "CA");
         ("geo_coords", JStr "37.386, -122.0838");
         ("status_code", JUndefined);
         ("event_type", JUndefined);
         ("execution_time", JUndefined);
         ("fonty_version", JUndefined);
         ("os_family", JUndefined);
         ("os_version", JUndefined);
         ("python_version", JUndefined);
         ("event_data",
          JArr [ JObj [("key", JStr "a"); ("value", JStr "1")];
                 JObj [("key", JStr "source_url"); ("value", JStr "http://x/y")];
                 JObj [("key", JStr "source_name"); ("value", JStr "Foo Foundry")] ]) ].

(** The record crafted for [nested_text]. *)
Definition nested_record : JsValue :=
  JObj [ ("server_timestamp", JUndefined);
         ("timestamp", JUndefined);
         ("geo_country_code", JStr "US");
         ("geo_country", JStr "United States of America");
         ("geo_region", JStr "CA");
         ("geo_coords", JStr "37.386, -122.0838");
         ("status_code", JUndefined);
         ("event_type", JUndefined);
         ("execution_time", JUndefined);
         ("fonty_version", JUndefined);
         ("os_family", JUndefined);
         ("os_version", JObj [("major", JNum "17")]);
         ("python_version", JUndefined);
         ("event_data", JArr []) ].

(** The world after [foundry_text] was transformed in [start]. *)
Definition foundry_world : World :=
  with_cache "http://x/y" (JStr "Foo Foundry")
    (with_request (JStr "http://x/y") start).

End Sample.

(** * Properties *)

(** ** Reading properties *)

Lemma get_Return_inv v k x : get v k = Return x → nullish v = false.
Proof. destruct v; simpl; intros H; try reflexivity; discriminate H. Qed.

Lemma get_defined v k : nullish v = false → ∃ x, get v k = Return x.
Proof. destruct v; simpl; intros H; try discriminate H; eauto. Qed.

(** ** What an action leaves alone *)

Section Keeps.
Context {X : Type} (f : World → X).

Lemma keeps_ret {A} (a : A) : keeps f (ret a).
Proof. intros w. reflexivity. Qed.

Lemma keeps_lift {A} (c : Completion A) : keeps f (lift c).
Proof. intros w. reflexivity. Qed.

Lemma keeps_bind {A B} (m : M A) (k : A → M B) :
  keeps f m → (∀ a, keeps f (k a)) → keeps f (bind m k).
Proof.
  intros Hm Hk w. unfold bind. specialize (Hm w).
  destruct (m w) as [[a|e] w1]; simpl in *.
  - rewrite Hk. exact Hm.
  - exact Hm.
Qed.

Lemma keeps_try_catch {A} (m : M A) (h : Exception → M A) :
  keeps f m → (∀ e, keeps f (h e)) → keeps f (try_catch m h).
Proof.
  intros Hm Hh w. unfold try_catch. specialize (Hm w).
  destruct (m w) as [[a|e] w1]; simpl in *.
  - exact Hm.
  - rewrite Hh. exact Hm.
Qed.

Lemma keeps_if {A} (b : bool) (m1 m2 : M A) :
  keeps f m1 → keeps f m2 → keeps f (if b then m1 else m2).
Proof. destruct b; auto. Qed.
End Keeps.

Lemma resolveFontSource_keeps {X} (f : World → X) host url :
  (∀ c r i l a, f {| _sourceCache := c; requests := r; inserted := i;
                     console := l; acks := a |}
                = f {| _sourceCache := []; requests := []; inserted := i;
                       console := l; acks := a |}) →
  keeps f (resolveFontSource host url).
Proof.
  intros Hf.
  assert (Hw : ∀ w w', inserted w' = inserted w → console w' = console w →
                       acks w' = acks w → f w' = f w).
  { intros [c r i l a] [c' r' i' l' a']; simpl; intros -> -> ->.
    rewrite Hf. symmetry. apply Hf. }
  unfold resolveFontSource.
  apply keeps_bind; [apply keeps_lift|]. intros key.
  apply keeps_bind; [intros w; reflexivity|]. intros cache.
  apply keeps_bind; [apply keeps_lift|]. intros cached.
  apply keeps_if; [apply keeps_lift|].
  apply keeps_try_catch; [|intros; apply keeps_ret].
  apply keeps_bind; [intros w; apply Hw; reflexivity|]. intros body.
  apply keeps_bind; [apply keeps_lift|]. intros name.
  apply keeps_bind; [intros w; apply Hw; reflexivity|]. intros _.
  apply keeps_ret.
Qed.

Lemma resolveSourceName_keeps {X} (f : World → X) host payload :
  (∀ c r i l a, f {| _sourceCache := c; requests := r; inserted := i;
                     console := l; acks := a |}
                = f {| _sourceCache := []; requests := []; inserted := i;
                       console := l; acks := a |}) →
  keeps f (resolveSourceName host payload).
Proof.
  intros Hf. unfold resolveSourceName.
  apply keeps_if; [apply keeps_ret|].
  apply keeps_bind; [apply keeps_lift|]. intros has.
  apply keeps_if; [|apply keeps_ret].
  apply keeps_bind; [apply keeps_lift|]. intros url.
  apply keeps_bind; [apply resolveFontSource_keeps, Hf|]. intros name.
  apply keeps_ret.
Qed.

Lemma transform_keeps {X} (f : World → X) host message :
  (∀ c r i l a, f {| _sourceCache := c; requests := r; inserted := i;
                     console := l; acks := a |}
                = f {| _sourceCache := []; requests := []; inserted := i;
                       console := l; acks := a |}) →
  keeps f (transform host message).
Proof.
  intros Hf. unfold transform.
  apply keeps_bind; [apply keeps_lift|]. intros event.
  apply keeps_bind; [apply keeps_lift|]. intros ip.
  apply keeps_bind; [apply keeps_lift|]. intros payload.
  apply keeps_bind; [apply resolveSourceName_keeps, Hf|]. intros payload'.
  apply keeps_bind; [apply keeps_lift|]. intros eventData.
  apply keeps_lift.
Qed.

Lemma store_keeps_acks bigquery processed : keeps acks (store bigquery processed).
Proof.
  unfold store. apply keeps_try_catch; [intros w; reflexivity|]. intros e.
  apply keeps_bind; [apply keeps_lift|]. intros error.
  intros w. reflexivity.
Qed.

Lemma store_inserted bigquery processed w :
  inserted (store bigquery processed w).2 = (inserted w ++ [JArr [processed]])%list.
Proof.
  unfold store, try_catch, insert, bind, lift, console_log. simpl.
  destruct (bigquery _ _ _) as [[]|e]; simpl; [reflexivity|].
  destruct (first_error (caught e)) as [error|]; reflexivity.
Qed.

(** ** [processMessage] is [transform], then store, then acknowledge *)

Lemma processMessage_transform host message bigquery w :
  processMessage host message bigquery w =
  match transform host message w with
  | (Return processed, w1) => (store bigquery processed ;; ack) w1
  | (Throw e, w1) => (Throw e, w1)
  end.
Proof.
  unfold processMessage, transform, bind, lift.
  destruct (JSON_parse host _) as [event|]; [|reflexivity].
  destruct (get event "ip_address") as [ip|]; [|reflexivity].
  destruct (get event "data") as [payload|]; [|reflexivity].
  destruct (resolveSourceName host payload w) as [[payload'|e] w1]; [|reflexivity].
  destruct (flatten payload') as [eventData|]; [|reflexivity].
  destruct (craft host event _ eventData) as [processed|]; reflexivity.
Qed.

(** A message is acknowledged by a run that returns, once, and by no
    run that throws. *)
Lemma processMessage_acks host message bigquery w :
  match processMessage host message bigquery w with
  | (Return _, w') => acks w' = S (acks w)
  | (Throw _, w') => acks w' = acks w
  end.
Proof.
  rewrite processMessage_transform.
  pose proof (transform_keeps acks host message (λ _ _ _ _ _, eq_refl) w) as Ht.
  destruct (transform host message w) as [[processed|e] w1]; simpl in Ht; [|exact Ht].
  unfold bind. pose proof (store_keeps_acks bigquery processed w1) as Hs.
  destruct (store bigquery processed w1) as [[[]|e] w2]; simpl in *; congruence.
Qed.

(** A run that throws before the record is crafted submits nothing. *)
Lemma transform_throw_aborts host message bigquery w e w1 :
  transform host message w = (Throw e, w1) →
  processMessage host message bigquery w = (Throw e, w1)
  ∧ acks w1 = acks w ∧ inserted w1 = inserted w ∧ console w1 = console w.
Proof.
  intros H. rewrite processMessage_transform, H. split; [reflexivity|].
  pose proof (transform_keeps acks host message (λ _ _ _ _ _, eq_refl) w) as Ha.
  pose proof (transform_keeps inserted host message (λ _ _ _ _ _, eq_refl) w) as Hi.
  pose proof (transform_keeps console host message (λ _ _ _ _ _, eq_refl) w) as Hc.
  rewrite H in Ha, Hi, Hc. auto.
Qed.

(** ** Crafting the record *)

(** Without a lookup result there is no record: [geo.country] is read
    from [null]. *)
Lemma craft_null_geo host event eventData :
  nullish event = false →
  craft host event (js_of_lookup None) eventData = Throw TypeError.
Proof.
  intros Hev. unfold craft.
  destruct (get_defined event "server_timestamp" Hev) as [x1 ->].
  destruct (get_defined event "timestamp" Hev) as [x2 ->].
  reflexivity.
Qed.

(** Without a table entry there is no record: [name] is read from
    [undefined]. *)
Lemma craft_unlisted_country host event g eventData :
  nullish event = false →
  lookup_own (country g) (iso3166 host) = None →
  inherited (country g) = false →
  craft host event (js_of_lookup (Some g)) eventData = Throw TypeError.
Proof.
  intros Hev Hown Hinh. unfold craft.
  destruct (get_defined event "server_timestamp" Hev) as [x1 ->].
  destruct (get_defined event "timestamp" Hev) as [x2 ->].
  simpl. rewrite Hown, Hinh. reflexivity.
Qed.

Lemma resolveSourceName_null host w :
  resolveSourceName host JNull w = (Return JNull, w).
Proof. reflexivity. Qed.

(** A run in which [craft] throws whatever was flattened throws. *)
Lemma transform_craft_throws host message w event ip :
  JSON_parse host (Buffer_toString host (data message)) = Some event →
  get event "ip_address" = Return ip →
  (∀ eventData,
     craft host event (js_of_lookup (geoip_lookup host ip)) eventData
     = Throw TypeError) →
  ∃ e w1, transform host message w = (Throw e, w1)
          ∧ (get event "data" = Return JNull → e = TypeError ∧ w1 = w).
Proof.
  intros Hparse Hip Hcraft. unfold transform, bind, lift.
  rewrite Hparse, Hip.
  destruct (get event "data") as [payload|e] eqn:Hdata.
  - destruct (resolveSourceName host payload w) as [[payload'|e] w1] eqn:Hres.
    + destruct (flatten payload') as [eventData|e] eqn:Hflat.
      * rewrite Hcraft. exists TypeError, w1. split; [reflexivity|].
        intros [= ->]. rewrite resolveSourceName_null in Hres.
        split; [reflexivity|congruence].
      * exists e, w1. split; [reflexivity|].
        intros [= ->]. rewrite resolveSourceName_null in Hres.
        injection Hres as <- <-. discriminate Hflat.
    + exists e, w1. split; [reflexivity|].
      intros [= ->]. rewrite resolveSourceName_null in Hres. discriminate Hres.
  - exists e, w. split; [reflexivity|]. intros H. discriminate H.
Qed.

(** ** C8: a message that is not JSON *)

(** C8.  When the bytes of the message do not parse as JSON,
    [processMessage] throws the [SyntaxError] of [JSON.parse] before it
    does anything else: the world is as it was, so the message is not
    acknowledged (and nothing is fetched, submitted or logged). *)
Theorem malformed_json_is_not_acknowledged host message bigquery w :
  JSON_parse host (Buffer_toString host (data message)) = None →
  processMessage host message bigquery w = (Throw SyntaxError, w)
  ∧ acks (processMessage host message bigquery w).2 = acks w.
Proof.
  intros Hparse. unfold processMessage, bind, lift. rewrite Hparse. auto.
Qed.

Lemma malformed_json_is_not_acknowledged_witness :
  JSON_parse Sample.host
    (Buffer_toString Sample.host (data (Sample.message Sample.broken_text))) = None
  ∧ processMessage Sample.host (Sample.message Sample.broken_text)
      Sample.accepting Sample.start = (Throw SyntaxError, Sample.start).
Proof.
  split; [reflexivity|].
  apply (malformed_json_is_not_acknowledged Sample.host
           (Sample.message Sample.broken_text) Sample.accepting Sample.start).
  reflexivity.
Defined.

(** ** C10: a payload that is missing *)

(** C10.  When the parsed event has no [data] member (reading it gives
    [undefined], not [null]), [processMessage] throws the [TypeError] of
    ['source_url' in data.data] and leaves the world as it was: the
    message is not acknowledged.  [Object.keys] of the flattening step
    would throw on [undefined] as well.  A payload that is [null] passes
    both steps and gives the empty [event_data]; every other payload is
    flattened through [Object.keys]. *)
Theorem missing_payload_throws host message bigquery w event :
  JSON_parse host (Buffer_toString host (data message)) = Some event →
  get event "data" = Return JUndefined →
  processMessage host message bigquery w = (Throw TypeError, w)
  ∧ acks (processMessage host message bigquery w).2 = acks w
  ∧ resolveSourceName host JUndefined w = (Throw TypeError, w)
  ∧ flatten JUndefined = Throw TypeError
  ∧ resolveSourceName host JNull w = (Return JNull, w)
  ∧ flatten JNull = Return []
  ∧ ∀ payload, payload ≠ JNull →
      flatten payload =
      (let? keys := Object_keys payload in
       cmap (fun key =>
               let? v := get payload key in
               let? value := null_or_String v in
               Return (JObj [("key", JStr key); ("value", value)]))
            keys).
Proof.
  intros Hparse Hdata.
  assert (processMessage host message bigquery w = (Throw TypeError, w)) as H.
  { unfold processMessage, bind, lift. rewrite Hparse.
    destruct (get_defined event "ip_address" (get_Return_inv _ _ _ Hdata)) as [ip ->].
    rewrite Hdata. reflexivity. }
  rewrite H. repeat split.
  intros payload Hne. destruct payload; try reflexivity. contradiction.
Qed.

Lemma missing_payload_throws_witness :
  processMessage Sample.host (Sample.message Sample.no_payload_text)
    Sample.accepting Sample.start = (Throw TypeError, Sample.start).
Proof.
  apply (missing_payload_throws Sample.host
           (Sample.message Sample.no_payload_text) Sample.accepting Sample.start
           (Sample.event "8.8.8.8" [])); reflexivity.
Defined.

(** ** C1: an address the database does not know *)

(** C1 (as the code has it).  When [geoip.lookup] finds nothing for the
    address of the event, no run of [processMessage] returns: it throws,
    submits no record and does not acknowledge the message.  With a
    [null] payload the exception is the [TypeError] of reading
    [geo.country] from [null], and the world is as it was. *)
Theorem unresolved_address_aborts host message bigquery w event ip :
  JSON_parse host (Buffer_toString host (data message)) = Some event →
  get event "ip_address" = Return ip →
  geoip_lookup host ip = None →
  ∃ e w', processMessage host message bigquery w = (Throw e, w')
          ∧ acks w' = acks w ∧ inserted w' = inserted w
          ∧ (get event "data" = Return JNull → e = TypeError ∧ w' = w).
Proof.
  intros Hparse Hip Hgeo.
  destruct (transform_craft_throws host message w event ip Hparse Hip)
    as (e & w1 & Ht & Hnull).
  { intros eventData. rewrite Hgeo.
    apply craft_null_geo, (get_Return_inv _ _ _ Hip). }
  exists e, w1.
  destruct (transform_throw_aborts host message bigquery w e w1 Ht)
    as (Hp & Ha & Hi & _).
  auto.
Qed.

Lemma unresolved_address_aborts_witness :
  geoip_lookup Sample.host (JStr "10.0.0.1") = None
  ∧ ∃ e w', processMessage Sample.host (Sample.message Sample.private_text)
              Sample.accepting Sample.start = (Throw e, w')
            ∧ acks w' = 0 ∧ inserted w' = [].
Proof.
  split; [reflexivity|].
  destruct (unresolved_address_aborts Sample.host
              (Sample.message Sample.private_text) Sample.accepting Sample.start
              (Sample.event "10.0.0.1" [("data", JNull)]) (JStr "10.0.0.1")
              eq_refl eq_refl eq_refl) as (e & w' & H & Ha & Hi & _).
  exists e, w'. auto.
Defined.

(** ** C3: a country code the table does not list *)

(** C3 (as the code has it).  When the lookup gives a country code for
    which [iso3166] has no entry, no run of [processMessage] returns:
    [iso3166[geo.country]] is [undefined], reading its [name] throws, no
    record is submitted and the message is not acknowledged. *)
Theorem unlisted_country_aborts host message bigquery w event ip g :
  JSON_parse host (Buffer_toString host (data message)) = Some event →
  get event "ip_address" = Return ip →
  geoip_lookup host ip = Some g →
  lookup_own (country g) (iso3166 host) = None →
  inherited (country g) = false →
  ∃ e w', processMessage host message bigquery w = (Throw e, w')
          ∧ acks w' = acks w ∧ inserted w' = inserted w
          ∧ (get event "data" = Return JNull → e = TypeError ∧ w' = w).
Proof.
  intros Hparse Hip Hgeo Hown Hinh.
  destruct (transform_craft_throws host message w event ip Hparse Hip)
    as (e & w1 & Ht & Hnull).
  { intros eventData. rewrite Hgeo.
    apply craft_unlisted_country; [apply (get_Return_inv _ _ _ Hip)|done..]. }
  exists e, w1.
  destruct (transform_throw_aborts host message bigquery w e w1 Ht)
    as (Hp & Ha & Hi & _).
  auto.
Qed.

Lemma unlisted_country_aborts_witness :
  lookup_own "XK" (iso3166 Sample.host) = None
  ∧ ∃ e w', processMessage Sample.host (Sample.message Sample.kosovo_text)
              Sample.accepting Sample.start = (Throw e, w')
            ∧ acks w' = 0 ∧ inserted w' = [].
Proof.
  split; [reflexivity|].
  destruct (unlisted_country_aborts Sample.host
              (Sample.message Sample.kosovo_text) Sample.accepting Sample.start
              (Sample.event "185.67.177.1" [("data", JNull)]) (JStr "185.67.177.1")
              {| country := "XK"; region := "01"; ll := ("42.6727", "21.1669") |}
              eq_refl eq_refl eq_refl eq_refl eq_refl)
    as (e & w' & H & Ha & Hi & _).
  exists e, w'. auto.
Defined.

(** ** C2: a sink that rejects *)

(** What [store] does, by what the sink answers. *)
Lemma store_cases bigquery processed w :
  store bigquery processed w =
  let w1 := with_rows (JArr [processed]) w in
  match bigquery "fonty_telemetry" "events" (JArr [processed]) with
  | Return _ => (Return (), w1)
  | Throw e =>
      match first_error (caught e) with
      | Return error => (Return (), with_log error w1)
      | Throw e' => (Throw e', w1)
      end
  end.
Proof.
  unfold store, try_catch, insert, bind, lift, console_log. simpl.
  destruct (bigquery _ _ _) as [[]|e]; [reflexivity|].
  destruct (first_error (caught e)); reflexivity.
Qed.

(** A rejection whose [errors[0].error] can be read is logged, and the
    message is acknowledged once. *)
Lemma rejection_with_errors_is_acknowledged host message bigquery w processed w1 e error :
  transform host message w = (Return processed, w1) →
  bigquery "fonty_telemetry" "events" (JArr [processed]) = Throw e →
  first_error (caught e) = Return error →
  processMessage host message bigquery w
  = (Return (), with_ack (with_log error (with_rows (JArr [processed]) w1)))
  ∧ acks (processMessage host message bigquery w).2 = S (acks w).
Proof.
  intros Ht Hbq Herr.
  pose proof (processMessage_acks host message bigquery w) as Hacks.
  rewrite processMessage_transform, Ht in *. unfold bind in *.
  rewrite store_cases in *. simpl in *. rewrite Hbq, Herr in *. simpl in *.
  auto.
Qed.

Example row_errors_are_logged_and_acknowledged :
  processMessage Sample.host (Sample.message Sample.plain_text)
    Sample.rejecting_rows Sample.start
  = (Return (),
     with_ack (with_log (JStr "invalid")
                 (with_rows (JArr [Sample.plain_record]) Sample.start))).
Proof. reflexivity. Qed.

(** C2 (as the code has it).  When the sink rejects with an error from
    which [err.errors[0].error] cannot be read (no [errors] member, an
    empty [errors], or a [null] error), the [catch] block itself throws:
    nothing is logged, [processMessage] throws and the message is not
    acknowledged. *)
Theorem rejection_without_errors_is_not_acknowledged
    host message bigquery w processed w1 e e' :
  transform host message w = (Return processed, w1) →
  bigquery "fonty_telemetry" "events" (JArr [processed]) = Throw e →
  first_error (caught e) = Throw e' →
  processMessage host message bigquery w
  = (Throw e', with_rows (JArr [processed]) w1)
  ∧ acks (processMessage host message bigquery w).2 = acks w
  ∧ console (processMessage host message bigquery w).2 = console w.
Proof.
  intros Ht Hbq Herr.
  pose proof (processMessage_acks host message bigquery w) as Hacks.
  pose proof (transform_keeps console host message (λ _ _ _ _ _, eq_refl) w) as Hc.
  rewrite processMessage_transform, Ht in *. unfold bind in *.
  rewrite store_cases in *. simpl in *. rewrite Hbq, Herr in *. simpl in *.
  auto.
Qed.

Lemma rejection_without_errors_is_not_acknowledged_witness :
  first_error (JObj [("message", JStr "socket hang up")]) = Throw TypeError
  ∧ processMessage Sample.host (Sample.message Sample.plain_text)
      Sample.unreachable Sample.start
    = (Throw TypeError, with_rows (JArr [Sample.plain_record]) Sample.start)
  ∧ acks (processMessage Sample.host (Sample.message Sample.plain_text)
            Sample.unreachable Sample.start).2 = 0.
Proof.
  split; [reflexivity|].
  destruct (rejection_without_errors_is_not_acknowledged Sample.host
              (Sample.message Sample.plain_text) Sample.unreachable Sample.start
              Sample.plain_record Sample.start
              (Rejection (JObj [("message", JStr "socket hang up")])) TypeError
              eq_refl eq_refl eq_refl)
    as (H & Ha & _).
  split; assumption.
Defined.

(** ** Own properties after an assignment *)

Lemma lookup_own_define_own k v ps :
  lookup_own k (define_own k v ps) = Some v.
Proof.
  induction ps as [|[k' v'] ps IH]; simpl.
  - rewrite String.eqb_refl. reflexivity.
  - destruct (String.eqb k' k) eqn:E; simpl; rewrite E; [reflexivity|exact IH].
Qed.

Lemma lookup_own_define_own_ne k k' v ps :
  k ≠ k' → lookup_own k' (define_own k v ps) = lookup_own k' ps.
Proof.
  intros Hne. induction ps as [|[k0 v0] ps IH]; simpl.
  - destruct (String.eqb_spec k k'); [contradiction|reflexivity].
  - destruct (String.eqb_spec k0 k) as [->|]; simpl.
    + destruct (String.eqb_spec k k'); [contradiction|reflexivity].
    + destruct (String.eqb k0 k'); [reflexivity|exact IH].
Qed.



(** ** C4 and C5: resolving a source URL *)

(** [resolveFontSource] on a string, by cases: the URL is a property of
    the cache (its own or an inherited one); the name can be read from
    the response, and whatever was read is cached; it cannot. *)
Lemma resolveFontSource_string host (url : string) w :
  resolveFontSource host (JStr url) w =
  if bool_decide (is_Some (lookup_own url (_sourceCache w))) || inherited url
  then (get (JObj (_sourceCache w)) url, w)
  else match readable_name (axios_get host (requests w) (JStr url)) with
       | Return name => (Return name, with_cache url name (with_request (JStr url) w))
       | Throw _ => (Return JNull, with_request (JStr url) w)
       end.
Proof.
  unfold resolveFontSource, bind, lift, sourceCache, try_catch, request,
    cache_store, ret, readable_name. simpl.
  destruct (bool_decide _ || inherited url); [reflexivity|].
  destruct (axios_get host (requests w) (JStr url)) as [body|e]; simpl; [|reflexivity].
  destruct (get body "name"); reflexivity.
Qed.

(** A URL that is a property of the cache is answered from the cache,
    without a request. *)
Lemma cached_resolution host (url : string) w :
  js_in url (JObj (_sourceCache w)) = Return true →
  resolveFontSource host (JStr url) w = (get (JObj (_sourceCache w)) url, w).
Proof.
  intros Hin. rewrite resolveFontSource_string.
  simpl in Hin. injection Hin as ->. reflexivity.
Qed.

(** [resolveFontSource] on a string returns; nothing it meets is thrown
    out of it. *)
Lemma resolveFontSource_returns host (url : string) w :
  ∃ v w', resolveFontSource host (JStr url) w = (Return v, w').
Proof.
  rewrite resolveFontSource_string.
  destruct (bool_decide _ || inherited url); [simpl; eauto|].
  destruct (readable_name _); eauto.
Qed.

(** C4 (amended).  For a URL that is not a property of the cache, a
    request that is rejected (network error, status outside 2xx), or
    that resolves with [data] that is [null], makes [resolveFontSource]
    return [null] and leaves the cache as it was; and once the request
    has settled, whatever its outcome, a call of [resolveFontSource] with
    a URL string throws nothing: no failure of the request leaves the
    call. *)
Theorem failed_fetch_gives_null host (url : string) w e :
  js_in url (JObj (_sourceCache w)) = Return false →
  readable_name (axios_get host (requests w) (JStr url)) = Throw e →
  resolveFontSource host (JStr url) w = (Return JNull, with_request (JStr url) w)
  ∧ _sourceCache (resolveFontSource host (JStr url) w).2 = _sourceCache w
  ∧ ∀ host' w', ∃ v w'', resolveFontSource host' (JStr url) w' = (Return v, w'').
Proof.
  intros Hin Hfail. rewrite resolveFontSource_string.
  simpl in Hin. injection Hin as ->. rewrite Hfail. simpl.
  repeat split. intros. apply resolveFontSource_returns.
Qed.

Lemma failed_fetch_gives_null_witness :
  readable_name (axios_get Sample.host [] (JStr "http://x/gone"))
  = Throw (Rejection (JObj [("message", JStr "Request failed with status code 404")]))
  ∧ resolveFontSource Sample.host (JStr "http://x/gone") Sample.start
    = (Return JNull, with_request (JStr "http://x/gone") Sample.start).
Proof.
  split; [reflexivity|].
  apply (failed_fetch_gives_null Sample.host "http://x/gone" Sample.start
           (Rejection (JObj [("message", JStr "Request failed with status code 404")]))
           eq_refl eq_refl).
Defined.

(** C4 fails as stated: a response whose body has no [name] member is
    not a failure to the code, which returns [undefined], not [null]. *)
Lemma body_without_name_gives_undefined :
  axios_get Sample.host [] (JStr "http://x/empty") = Return (JObj [])
  ∧ lookup_own "name" [] = None
  ∧ (resolveFontSource Sample.host (JStr "http://x/empty") Sample.start).1
    = Return JUndefined
  ∧ (resolveFontSource Sample.host (JStr "http://x/empty") Sample.start).1
    ≠ Return JNull.
Proof. repeat split. discriminate. Qed.

(** C5 (amended).  Two resolutions in a row of a URL that is not a
    property of the cache.  The first sends one request.  If the request
    resolves with [data] other than [null] or [undefined] (axios gives
    the empty string, not [undefined], for an empty body), what is read
    as its [name] ([undefined] when there is none) is cached and
    returned, and returned again by the second resolution, which sends no
    request.  If the request is rejected or its [data] is [null], the
    first resolution returns [null] and caches nothing, and the second
    sends a request of its own. *)
Theorem second_resolution host (url : string) w :
  js_in url (JObj (_sourceCache w)) = Return false →
  let first := resolveFontSource host (JStr url) w in
  let second := resolveFontSource host (JStr url) first.2 in
  requests first.2 = (requests w ++ [JStr url])%list
  ∧ match readable_name (axios_get host (requests w) (JStr url)) with
    | Return name =>
        first.1 = Return name ∧ second.1 = Return name
        ∧ requests second.2 = requests first.2
    | Throw _ =>
        first.1 = Return JNull ∧ _sourceCache first.2 = _sourceCache w
        ∧ requests second.2 = (requests first.2 ++ [JStr url])%list
    end.
Proof.
  intros Hin. simpl in Hin. injection Hin as Hin. simpl.
  rewrite (resolveFontSource_string host url w), Hin.
  destruct (readable_name (axios_get host (requests w) (JStr url))) as [name|e];
    simpl; (split; [reflexivity|]).
  - rewrite resolveFontSource_string. simpl.
    rewrite lookup_own_define_own. simpl. auto.
  - rewrite resolveFontSource_string. simpl. rewrite Hin.
    destruct (readable_name _); auto.
Qed.

Lemma second_resolution_witness :
  (resolveFontSource Sample.host (JStr "http://x/y") Sample.start).1
  = Return (JStr "Foo Foundry")
  ∧ (resolveFontSource Sample.host (JStr "http://x/y")
       (resolveFontSource Sample.host (JStr "http://x/y") Sample.start).2).1
    = Return (JStr "Foo Foundry")
  ∧ requests (resolveFontSource Sample.host (JStr "http://x/y")
                (resolveFontSource Sample.host (JStr "http://x/y") Sample.start).2).2
    = [JStr "http://x/y"].
Proof.
  destruct (second_resolution Sample.host "http://x/y" Sample.start eq_refl)
    as (H1 & H2 & H3 & H4).
  rewrite H4, H1. auto.
Defined.

(** C5 fails as stated: a response without [name], a failure to the
    specification, is cached ([undefined] under the URL) and the second
    resolution sends no request. *)
Lemma body_without_name_is_cached :
  let first := resolveFontSource Sample.host (JStr "http://x/empty") Sample.start in
  let second := resolveFontSource Sample.host (JStr "http://x/empty") first.2 in
  axios_get Sample.host [] (JStr "http://x/empty") = Return (JObj [])
  ∧ lookup_own "http://x/empty" (_sourceCache first.2) = Some JUndefined
  ∧ requests first.2 = [JStr "http://x/empty"]
  ∧ requests second.2 = [JStr "http://x/empty"]
  ∧ requests second.2 ≠ (requests first.2 ++ [JStr "http://x/empty"])%list.
Proof. repeat split. discriminate. Qed.

(** ** Mapping a function that may throw *)

Lemma cmap_Forall2 {A B} (f : A → Completion B) (R : A → B → Prop) l :
  Forall (λ x, ∃ y, f x = Return y ∧ R x y) l →
  ∃ ys, cmap f l = Return ys ∧ Forall2 R l ys.
Proof.
  induction 1 as [|x l (y & Hy & HR) _ (ys & Hys & HF)]; simpl.
  - exists []. split; [reflexivity|constructor].
  - rewrite Hy, Hys. simpl. exists (y :: ys). split; [reflexivity|].
    constructor; assumption.
Qed.

Lemma cmap_Return {A B} (f : A → Completion B) l ys :
  cmap f l = Return ys → Forall2 (λ x y, f x = Return y) l ys.
Proof.
  revert ys. induction l as [|x l IH]; simpl; intros ys H.
  - injection H as <-. constructor.
  - destruct (f x) as [y|] eqn:Hy; simpl in H; [|discriminate].
    destruct (cmap f l) as [ys'|]; simpl in H; [|discriminate].
    injection H as <-. constructor; [exact Hy|]. apply IH. reflexivity.
Qed.

Lemma cmap_app {A B} (f : A → Completion B) l1 l2 :
  cmap f (l1 ++ l2) =
  let? ys1 := cmap f l1 in let? ys2 := cmap f l2 in Return (ys1 ++ ys2)%list.
Proof.
  induction l1 as [|x l1 IH]; simpl.
  - destruct (cmap f l2); reflexivity.
  - destruct (f x); simpl; [|reflexivity]. rewrite IH.
    destruct (cmap f l1); simpl; [|reflexivity].
    destruct (cmap f l2); reflexivity.
Qed.

Lemma cmap_ext_in {A B} (f g : A → Completion B) l :
  (∀ x, x ∈ l → f x = g x) → cmap f l = cmap g l.
Proof.
  induction l as [|x l IH]; simpl; intros H; [reflexivity|].
  rewrite (H x) by left. rewrite IH; [reflexivity|].
  intros y Hy. apply H. right. exact Hy.
Qed.

(** ** The order of [Object.keys] *)

Lemma array_index_pretty k n : array_index k = Some n → pretty n = k.
Proof.
  unfold array_index. destruct k as [|c k]; [discriminate|].
  destruct (digits_value 0 (String c k)) as [m|]; [|discriminate].
  destruct (N.ltb m 4294967295); simpl; [|discriminate].
  destruct (String.eqb_spec (pretty m) (String c k)); [|discriminate].
  congruence.
Qed.

Lemma is_index_false k : is_index k = false ↔ array_index k = None.
Proof. unfold is_index. destruct (array_index k); split; congruence. Qed.

Lemma own_keys_Permutation ps : own_keys ps ≡ₚ ps.*1.
Proof.
  unfold own_keys. rewrite merge_sort_Permutation.
  induction (ps.*1) as [|k ks IH]; [reflexivity|].
  destruct (array_index k) as [n|] eqn:Hk.
  - rewrite filter_cons_False
      by (rewrite is_index_false, Hk; discriminate).
    simpl. rewrite Hk. simpl.
    rewrite (array_index_pretty k n Hk), IH. reflexivity.
  - rewrite filter_cons_True by (rewrite is_index_false; exact Hk).
    simpl. rewrite Hk. rewrite <- Permutation_middle, IH. reflexivity.
Qed.

Lemma omap_array_index_nil ks :
  Forall (λ k, is_index k = false) ks → omap array_index ks = [].
Proof.
  induction 1 as [|k ks Hk _ IH]; [reflexivity|].
  apply is_index_false in Hk. simpl. rewrite Hk. exact IH.
Qed.

Lemma filter_Forall_id {A} (P : A → Prop) `{∀ x, Decision (P x)} (l : list A) :
  Forall P l → filter P l = l.
Proof.
  induction 1 as [|x l Hx _ IH]; [reflexivity|].
  rewrite filter_cons_True by exact Hx. rewrite IH. reflexivity.
Qed.

(** Without array indices among the keys, [Object.keys] lists them in
    the order of their creation. *)
Lemma own_keys_insertion_order ps :
  Forall (λ k, is_index k = false) ps.*1 → own_keys ps = ps.*1.
Proof.
  intros H. unfold own_keys.
  rewrite (omap_array_index_nil _ H), (filter_Forall_id _ _ H). reflexivity.
Qed.

Lemma own_keys_snoc ps k v :
  is_index k = false →
  own_keys (ps ++ [(k, v)]) = (own_keys ps ++ [k])%list.
Proof.
  intros Hk. unfold own_keys. rewrite fmap_app, omap_app, filter_app. simpl.
  rewrite filter_cons_True by exact Hk. rewrite filter_nil.
  apply is_index_false in Hk. rewrite Hk.
  rewrite app_nil_r, app_assoc. reflexivity.
Qed.

Lemma lookup_own_elem k ps :
  k ∈ ps.*1 → ∃ v, lookup_own k ps = Some v ∧ (k, v) ∈ ps.
Proof.
  induction ps as [|[k' v'] ps IH]; simpl; intros H.
  - inversion H.
  - destruct (String.eqb_spec k' k) as [->|Hne].
    + exists v'. split; [reflexivity|left].
    + inversion H as [|? ? ? Hin]; subst; [contradiction|].
      destruct (IH Hin) as (v & Hv & Hel). exists v. split; [exact Hv|].
      right. exact Hel.
Qed.

Lemma lookup_own_Some k ps v : lookup_own k ps = Some v → (k, v) ∈ ps.
Proof.
  induction ps as [|[k' v'] ps IH]; simpl; [discriminate|].
  destruct (String.eqb_spec k' k) as [->|Hne].
  - intros [= ->]. left.
  - intros H. right. apply IH, H.
Qed.

Lemma lookup_own_app_l k ps qs :
  is_Some (lookup_own k ps) → lookup_own k (ps ++ qs) = lookup_own k ps.
Proof.
  induction ps as [|[k' v'] ps IH]; simpl.
  - intros [? [=]].
  - destruct (String.eqb k' k); [reflexivity|exact IH].
Qed.

(** ** C6: flattening *)

Lemma flatten_object ps :
  flatten (JObj ps) =
  cmap (fun key =>
          let? v := get (JObj ps) key in
          let? value := null_or_String v in
          Return (JObj [("key", JStr key); ("value", value)]))
       (own_keys ps).
Proof. reflexivity. Qed.

Lemma null_or_String_spec v s :
  JS_String v = Return s →
  ∃ value, null_or_String v = Return value
           ∧ ((v = JNull ∧ value = JNull)
              ∨ (v ≠ JNull ∧ ∃ s, JS_String v = Return s ∧ value = JStr s)).
Proof.
  intros Hs. unfold null_or_String.
  destruct (is_null v) eqn:Hnull.
  - destruct v; try discriminate Hnull.
    exists JNull. split; [reflexivity|left; auto].
  - rewrite Hs. exists (JStr s). split; [reflexivity|right].
    split; [intros ->; discriminate Hnull|eauto].
Qed.

(** C6 (amended).  A [null] payload flattens to the empty sequence.  A
    payload object whose values can all be converted by [String]
    flattens to one entry per own key, in the order [Object.keys] lists
    the keys: array-index keys first in ascending numeric order, then
    the other keys in insertion order, so in insertion order whenever no
    key is an array index.  Each entry carries its key and, as value, the
    string conversion of the payload value, or [null] when that value is
    [null]. *)
Theorem flatten_contract ps :
  Forall (λ p, ∃ s, JS_String p.2 = Return s) ps →
  flatten JNull = Return []
  ∧ ∃ entries,
      flatten (JObj ps) = Return entries
      ∧ length entries = length ps
      ∧ Forall2 (entry_for ps) (own_keys ps) entries
      ∧ own_keys ps ≡ₚ ps.*1
      ∧ (Forall (λ k, is_index k = false) ps.*1 → own_keys ps = ps.*1).
Proof.
  intros Hconv. split; [reflexivity|].
  rewrite flatten_object.
  destruct (cmap_Forall2
              (fun key =>
                 let? v := get (JObj ps) key in
                 let? value := null_or_String v in
                 Return (JObj [("key", JStr key); ("value", value)]))
              (entry_for ps) (own_keys ps)) as (entries & Hentries & HF).
  { apply Forall_forall. intros k Hk.
    rewrite own_keys_Permutation in Hk.
    destruct (lookup_own_elem k ps Hk) as (v & Hv & Hel).
    rewrite Forall_forall in Hconv. destruct (Hconv _ Hel) as [s Hs].
    destruct (null_or_String_spec v s Hs) as (value & Hvalue & Hspec).
    simpl. rewrite Hv. simpl. rewrite Hvalue. simpl.
    eexists. split; [reflexivity|]. exists v, value. auto. }
  exists entries. split; [exact Hentries|].
  split.
  { rewrite <- (Forall2_length _ _ _ HF), own_keys_Permutation.
    apply length_fmap. }
  split; [exact HF|].
  split; [apply own_keys_Permutation|apply own_keys_insertion_order].
Qed.

Lemma flatten_contract_witness :
  ∃ entries,
    flatten (JObj [("font", JStr "Lato"); ("style", JNull);
                   ("weights", JArr [JNum "400"; JNum "700"])])
    = Return entries
    ∧ length entries = 3.
Proof.
  destruct (flatten_contract [("font", JStr "Lato"); ("style", JNull);
                              ("weights", JArr [JNum "400"; JNum "700"])])
    as (_ & entries & H & Hlen & _).
  { repeat constructor; eexists; reflexivity. }
  exists entries. auto.
Defined.

(** C6 fails as stated: with an array-index key the entries are not in
    insertion order.  The payload [{"b":1,"1":2}] flattens to the entry
    of ["1"] followed by that of ["b"]. *)
Lemma index_keys_are_listed_first :
  flatten (JObj [("b", JNum "1"); ("1", JNum "2")])
  = Return [ JObj [("key", JStr "1"); ("value", JStr "2")];
             JObj [("key", JStr "b"); ("value", JStr "1")] ]
  ∧ ¬ ∃ first second,
        flatten (JObj [("b", JNum "1"); ("1", JNum "2")])
        = Return [ JObj [("key", JStr "b"); ("value", first)];
                   JObj [("key", JStr "1"); ("value", second)] ].
Proof.
  split; [reflexivity|].
  intros (first & second & H). vm_compute in H. discriminate H.
Qed.

(** ** C7: the source name *)

Lemma lookup_own_app_r k v ps :
  lookup_own k ps = None → lookup_own k (ps ++ [(k, v)]) = Some v.
Proof.
  induction ps as [|[k' v'] ps IH]; simpl.
  - intros _. rewrite String.eqb_refl. reflexivity.
  - destruct (String.eqb k' k); [discriminate|exact IH].
Qed.

Lemma own_keys_defined k ps : k ∈ own_keys ps → is_Some (lookup_own k ps).
Proof.
  rewrite own_keys_Permutation. intros Hk.
  destruct (lookup_own_elem k ps Hk) as (v & Hv & _). eauto.
Qed.

(** A property created last, under a key that is not an array index,
    adds one entry, last. *)
Lemma flatten_snoc ps k v entries value :
  is_index k = false →
  lookup_own k ps = None →
  flatten (JObj ps) = Return entries →
  null_or_String v = Return value →
  flatten (JObj (ps ++ [(k, v)]))
  = Return (entries ++ [JObj [("key", JStr k); ("value", value)]])%list.
Proof.
  intros Hk Hfresh Hflat Hvalue.
  rewrite flatten_object in *. rewrite own_keys_snoc by exact Hk.
  rewrite cmap_app.
  rewrite (cmap_ext_in _
             (fun key =>
                let? v := get (JObj ps) key in
                let? value := null_or_String v in
                Return (JObj [("key", JStr key); ("value", value)]))).
  - rewrite Hflat. simpl. rewrite (lookup_own_app_r k v ps Hfresh). simpl.
    rewrite Hvalue. reflexivity.
  - intros key Hkey. simpl.
    rewrite (lookup_own_app_l key ps _ (own_keys_defined key ps Hkey)).
    reflexivity.
Qed.





(** ** C9: the record that is submitted *)

Lemma flatten_flat payload entries :
  flatten payload = Return entries → forallb flat_entry entries = true.
Proof.
  unfold flatten. destruct (is_null payload).
  - intros [= <-]. reflexivity.
  - destruct (Object_keys payload) as [keys|]; simpl; [|discriminate].
    intros H. apply cmap_Return in H.
    induction H as [|k e ks es Hke _ IH]; [reflexivity|].
    simpl. rewrite IH, andb_true_r.
    destruct (get payload k) as [v|]; simpl in Hke; [|discriminate].
    unfold null_or_String in Hke. destruct (is_null v); simpl in Hke.
    + injection Hke as <-. reflexivity.
    + destruct (JS_String v); simpl in Hke; [|discriminate].
      injection Hke as <-. reflexivity.
Qed.

Lemma table_name_scalar table key entry name :
  Forall (λ p, ∀ name, get p.2 "name" = Return name → scalar name = true) table →
  get (JObj table) key = Return entry →
  get entry "name" = Return name →
  scalar name = true.
Proof.
  intros Htable Hentry Hname. simpl in Hentry.
  destruct (lookup_own key table) as [x|] eqn:Hown.
  - injection Hentry as ->. apply lookup_own_Some in Hown.
    rewrite Forall_forall in Htable. apply (Htable _ Hown). exact Hname.
  - destruct (inherited key); injection Hentry as <-; simpl in Hname.
    + injection Hname as <-. destruct (negb _); reflexivity.
    + discriminate Hname.
Qed.

Lemma craft_flat host event r eventData processed :
  Forall (λ k, ∃ v, get event k = Return v ∧ scalar v = true) passthrough →
  Forall (λ p, ∀ name, get p.2 "name" = Return name → scalar name = true)
         (iso3166 host) →
  forallb flat_entry eventData = true →
  craft host event (js_of_lookup r) eventData = Return processed →
  flat_record processed = true
  ∧ ∃ fields, processed = JObj fields ∧ fields.*1 = processed_members.
Proof.
  intros Hpass Htable Hentries Hcraft. unfold craft in Hcraft.
  unfold passthrough in Hpass.
  repeat match goal with
         | H : Forall _ (_ :: _) |- _ =>
             let v := fresh "v" in
             let Hget := fresh "Hget" in
             let Hsc := fresh "Hsc" in
             apply Forall_cons in H; destruct H as [(v & Hget & Hsc) H];
             rewrite Hget in Hcraft
         end.
  destruct r as [g|]; [|discriminate Hcraft].
  cbn [cbind js_of_lookup] in Hcraft.
  change (get (JObj [("country", JStr (country g)); ("region", JStr (region g));
                     ("ll", JArr [JNum (ll g).1; JNum (ll g).2])]) "country")
    with (Return (A:=JsValue) (JStr (country g))) in Hcraft.
  cbn [cbind ToPropertyKey JS_String] in Hcraft.
  destruct (get (JObj (iso3166 host)) (country g)) as [entry|] eqn:Hentry;
    [|discriminate Hcraft].
  cbn [cbind] in Hcraft.
  destruct (get entry "name") as [name|] eqn:Hname; [|discriminate Hcraft].
  pose proof (table_name_scalar _ _ _ _ Htable Hentry Hname) as Hscalar.
  simpl in Hcraft. injection Hcraft as <-.
  split.
  - simpl. rewrite Hsc, Hsc0, Hsc1, Hsc2, Hsc3, Hsc4, Hsc5, Hsc6, Hsc7, Hentries.
    unfold js_or. destruct (truthy name); [rewrite Hscalar|]; reflexivity.
  - eexists. split; reflexivity.
Qed.

(** C9 (amended).  For an event whose nine copied members are scalars,
    as [IncomingTelemetryEvent] declares them, and a country table whose
    names are scalars, the record [processMessage] crafts and hands to
    the sink has the members of [ProcessedTelemetryEvent] and no other,
    so no [ip_address]; every member but [event_data] is a scalar, and
    [event_data] is an array of entries whose [key] is a string and whose
    [value] is a string or [null], whatever the payload held.  The copied
    members are not checked: the restriction to scalar ones is needed. *)
Theorem processed_record_is_flat host message bigquery w event processed w1 :
  JSON_parse host (Buffer_toString host (data message)) = Some event →
  Forall (λ k, ∃ v, get event k = Return v ∧ scalar v = true) passthrough →
  Forall (λ p, ∀ name, get p.2 "name" = Return name → scalar name = true)
         (iso3166 host) →
  transform host message w = (Return processed, w1) →
  flat_record processed = true
  ∧ (∃ fields, processed = JObj fields ∧ fields.*1 = processed_members)
  ∧ ("ip_address" ∉ processed_members)
  ∧ inserted (processMessage host message bigquery w).2
    = (inserted w ++ [JArr [processed]])%list.
Proof.
  intros Hparse Hpass Htable Ht.
  assert (flat_record processed = true
          ∧ ∃ fields, processed = JObj fields ∧ fields.*1 = processed_members)
    as [Hflat Hfields].
  { unfold transform, bind, lift in Ht. rewrite Hparse in Ht.
    destruct (get event "ip_address") as [ip|]; [|discriminate Ht].
    destruct (get event "data") as [payload|]; [|discriminate Ht].
    destruct (resolveSourceName host payload w) as [[payload'|] w2];
      [|discriminate Ht].
    destruct (flatten payload') as [eventData|] eqn:Hflatten; [|discriminate Ht].
    destruct (craft host event _ eventData) as [p|] eqn:Hcraft; [|discriminate Ht].
    injection Ht as -> ->.
    apply (craft_flat host event _ eventData processed Hpass Htable
             (flatten_flat _ _ Hflatten) Hcraft). }
  split; [exact Hflat|]. split; [exact Hfields|]. split.
  - unfold processed_members. rewrite !elem_of_cons, elem_of_nil.
    intros H. repeat destruct H as [H|H]; try discriminate H. exact H.
  - rewrite processMessage_transform, Ht. unfold bind.
    pose proof (store_inserted bigquery processed w1) as Hs.
    pose proof (transform_keeps inserted host message (λ _ _ _ _ _, eq_refl) w) as Hi.
    rewrite Ht in Hi. simpl in Hi.
    destruct (store bigquery processed w1) as [[[]|e] w2]; simpl in *; congruence.
Qed.

Lemma processed_record_is_flat_witness :
  transform Sample.host (Sample.message Sample.full_text) Sample.start
  = (Return Sample.full_record, Sample.start)
  ∧ flat_record Sample.full_record = true
  ∧ inserted (processMessage Sample.host (Sample.message Sample.full_text)
                Sample.accepting Sample.start).2
    = [JArr [Sample.full_record]].
Proof.
  split; [reflexivity|].
  destruct (processed_record_is_flat Sample.host
              (Sample.message Sample.full_text) Sample.accepting Sample.start
              (Sample.event "8.8.8.8"
                 [ ("server_timestamp", JNum "1519862400");
                   ("timestamp", JStr "2018-03-01T00:00:00Z");
                   ("status_code", JNum "0");
                   ("event_type", JStr "install");
                   ("execution_time", JNum "0.53");
                   ("fonty_version", JStr "0.1.5");
                   ("os_family", JStr "Darwin");
                   ("os_version", JStr "17.4.0");
                   ("python_version", JStr "3.6.4");
                   ("data", JObj [ ("font", JArr [ JStr "Lato";
                                                   JObj [("weight", JNum "400")] ]) ]) ])
              Sample.full_record Sample.start eq_refl)
    as (Hflat & _ & _ & Hins).
  - repeat constructor; eexists; split; reflexivity.
  - repeat constructor; simpl; intros name [= <-]; reflexivity.
  - reflexivity.
  - split; assumption.
Defined.

(** C9 fails as stated: the copied members are taken from the parsed
    JSON as they are.  An event whose [os_version] is an object is
    crafted into a record with that object as a member, and the record is
    submitted and the message acknowledged. *)
Lemma nested_member_is_copied :
  processMessage Sample.host_more (Sample.message Sample.nested_text)
    Sample.accepting Sample.start
  = (Return (),
     with_ack (with_rows (JArr [Sample.nested_record]) Sample.start))
  ∧ get Sample.nested_record "os_version"
    = Return (JObj [("major", JNum "17")])
  ∧ scalar (JObj [("major", JNum "17")]) = false
  ∧ flat_record Sample.nested_record = false.
Proof. repeat split. Qed.

(** ** The example of the specification *)

(** The event [{ip_address: "8.8.8.8", data: {"a": 1, "source_url":
    "http://x/y"}}] with a server that answers [{"name": "Foo Foundry"}]:
    one request, the name cached, entries for [a], [source_url] and
    [source_name], the geo members of the United States, and the message
    acknowledged once. *)
Example foundry_event_is_processed :
  processMessage Sample.host (Sample.message Sample.foundry_text)
    Sample.accepting Sample.start
  = (Return (),
     {| _sourceCache := [("http://x/y", JStr "Foo Foundry")];
        requests := [JStr "http://x/y"];
        inserted :=
          [ JArr [ JObj [ ("server_timestamp", JUndefined);
                          ("timestamp", JUndefined);
                          ("geo_country_code", JStr "US");
                          ("geo_country", JStr "United States of America");
                          ("geo_region", JStr "CA");
                          ("geo_coords", JStr "37.386, -122.0838");
                          ("status_code", JUndefined);
                          ("event_type", JUndefined);
                          ("execution_time", JUndefined);
                          ("fonty_version", JUndefined);
                          ("os_family", JUndefined);
                          ("os_version", JUndefined);
                          ("python_version", JUndefined);
                          ("event_data",
                           JArr [ JObj [("key", JStr "a"); ("value", JStr "1")];
                                  JObj [("key", JStr "source_url");
                                        ("value", JStr "http://x/y")];
                                  JObj [("key", JStr "source_name");
                                        ("value", JStr "Foo Foundry")] ]) ] ] ];
        console := [];
        acks := 1 |}).
Proof. reflexivity. Qed.

(** * Further properties of the pipeline *)

(** ** The effects of a run, step by step *)

Lemma resolveFontSource_cases host url key w :
  ToPropertyKey url = Return key →
  resolveFontSource host url w =
  if bool_decide (is_Some (lookup_own key (_sourceCache w))) || inherited key
  then (get (JObj (_sourceCache w)) key, w)
  else match readable_name (axios_get host (requests w) url) with
       | Return name => (Return name, with_cache key name (with_request url w))
       | Throw _ => (Return JNull, with_request url w)
       end.
Proof.
  intros Hkey.
  unfold resolveFontSource, bind, lift, sourceCache, try_catch, request,
    cache_store, ret, readable_name. rewrite Hkey. simpl.
  destruct (bool_decide _ || inherited key); [reflexivity|].
  destruct (axios_get host (requests w) url) as [body|e]; simpl; [|reflexivity].
  destruct (get body "name"); reflexivity.
Qed.

Lemma resolveFontSource_key_throws host url e w :
  ToPropertyKey url = Throw e → resolveFontSource host url w = (Throw e, w).
Proof.
  intros Hkey. unfold resolveFontSource, bind, lift. rewrite Hkey. reflexivity.
Qed.

(** The world after "Resolve font source name" is the one before it, or
    the one [resolveFontSource] leaves for the payload's [source_url]. *)
Lemma resolveSourceName_world host payload w :
  (resolveSourceName host payload w).2 = w
  ∨ ∃ url, js_in "source_url" payload = Return true
           ∧ get payload "source_url" = Return url
           ∧ (resolveSourceName host payload w).2 = (resolveFontSource host url w).2.
Proof.
  unfold resolveSourceName, bind, lift, ret.
  destruct (is_null payload); [left; reflexivity|].
  destruct (js_in "source_url" payload) as [[|]|] eqn:Hin; try (left; reflexivity).
  destruct (get payload "source_url") as [url|] eqn:Hurl; [|left; reflexivity].
  right. exists url. split; [reflexivity|]. split; [first [exact Hurl|reflexivity]|].
  destruct (resolveFontSource host url w) as [[name|e] w1]; reflexivity.
Qed.

Lemma transform_world host message w :
  (transform host message w).2 = w
  ∨ ∃ event payload,
      JSON_parse host (Buffer_toString host (data message)) = Some event
      ∧ get event "data" = Return payload
      ∧ (transform host message w).2 = (resolveSourceName host payload w).2.
Proof.
  unfold transform, bind, lift.
  destruct (JSON_parse host _) as [event|] eqn:Hparse; [|left; reflexivity].
  destruct (get event "ip_address") as [ip|]; [|left; reflexivity].
  destruct (get event "data") as [payload|] eqn:Hdata; [|left; reflexivity].
  right. exists event, payload.
  split; [first [exact Hparse|reflexivity]|].
  split; [first [exact Hdata|reflexivity]|].
  destruct (resolveSourceName host payload w) as [[payload'|e] w1]; [|reflexivity].
  destruct (flatten payload'); reflexivity.
Qed.

(** Storing and acknowledging touch neither the cache nor the requests. *)
Lemma processMessage_after_transform {X} (f : World → X) host message bigquery w :
  (∀ c r i l a, f {| _sourceCache := c; requests := r; inserted := i;
                     console := l; acks := a |}
                = f {| _sourceCache := c; requests := r; inserted := [];
                       console := []; acks := 0 |}) →
  f (processMessage host message bigquery w).2 = f (transform host message w).2.
Proof.
  intros Hf.
  assert (Hw : ∀ w1 w2, _sourceCache w2 = _sourceCache w1 →
                        requests w2 = requests w1 → f w2 = f w1).
  { intros [c r i l a] [c' r' i' l' a']; simpl; intros -> ->.
    rewrite Hf. symmetry. apply Hf. }
  rewrite processMessage_transform.
  destruct (transform host message w) as [[processed|e] w1]; [|reflexivity].
  unfold bind. rewrite store_cases. simpl.
  destruct (bigquery _ _ _) as [[]|e]; simpl; [apply Hw; reflexivity|].
  destruct (first_error (caught e)); simpl; apply Hw; reflexivity.
Qed.

(** ** X1: acknowledgment and submission *)

(** X1.  Whatever the message, the collaborators and the sink do, a run
    of [processMessage] hands at most one batch to the sink, of exactly
    one record.  A run that returns has handed its batch over and has
    acknowledged the message once; a run that throws has not
    acknowledged it.  So no message is acknowledged before its record
    went to the sink. *)
Theorem acknowledged_only_after_submission host message bigquery w :
  match processMessage host message bigquery w with
  | (Return _, w') =>
      acks w' = S (acks w)
      ∧ ∃ processed, inserted w' = (inserted w ++ [JArr [processed]])%list
  | (Throw _, w') =>
      acks w' = acks w
      ∧ (inserted w' = inserted w
         ∨ ∃ processed, inserted w' = (inserted w ++ [JArr [processed]])%list)
  end.
Proof.
  pose proof (processMessage_acks host message bigquery w) as Hacks.
  rewrite processMessage_transform in *.
  pose proof (transform_keeps inserted host message (λ _ _ _ _ _, eq_refl) w) as Hi.
  destruct (transform host message w) as [[processed|e] w1]; simpl in Hi.
  - unfold bind in *. pose proof (store_inserted bigquery processed w1) as Hs.
    destruct (store bigquery processed w1) as [[[]|e] w2]; simpl in *;
      (split; [exact Hacks|]); [|right]; exists processed; congruence.
  - split; [exact Hacks|]. left. exact Hi.
Qed.

(** ** X2, X3: what the sink answers *)

(** X2.  When the record is crafted and the sink accepts it,
    [processMessage] returns: the batch of that one record was submitted,
    the message is acknowledged once and nothing is logged. *)
Theorem accepted_record_is_acknowledged host message bigquery w processed w1 :
  transform host message w = (Return processed, w1) →
  bigquery "fonty_telemetry" "events" (JArr [processed]) = Return () →
  processMessage host message bigquery w
  = (Return (), with_ack (with_rows (JArr [processed]) w1))
  ∧ console (processMessage host message bigquery w).2 = console w
  ∧ acks (processMessage host message bigquery w).2 = S (acks w).
Proof.
  intros Ht Hbq.
  pose proof (transform_keeps console host message (λ _ _ _ _ _, eq_refl) w) as Hc.
  pose proof (transform_keeps acks host message (λ _ _ _ _ _, eq_refl) w) as Ha.
  rewrite processMessage_transform, Ht in *. unfold bind.
  rewrite store_cases. simpl in *. rewrite Hbq. simpl. auto.
Qed.

Lemma accepted_record_is_acknowledged_witness :
  processMessage Sample.host (Sample.message Sample.plain_text)
    Sample.accepting Sample.start
  = (Return (), with_ack (with_rows (JArr [Sample.plain_record]) Sample.start)).
Proof.
  apply (accepted_record_is_acknowledged Sample.host
           (Sample.message Sample.plain_text) Sample.accepting Sample.start
           Sample.plain_record Sample.start eq_refl eq_refl).
Defined.

(** X3.  When the sink rejects the record with an error from which
    [err.errors[0].error] can be read, that value, and nothing else, is
    logged, and the message is acknowledged once all the same. *)
Theorem readable_rejection_is_logged_once
    host message bigquery w processed w1 e error :
  transform host message w = (Return processed, w1) →
  bigquery "fonty_telemetry" "events" (JArr [processed]) = Throw e →
  first_error (caught e) = Return error →
  (processMessage host message bigquery w).1 = Return ()
  ∧ console (processMessage host message bigquery w).2
    = (console w ++ [error])%list
  ∧ acks (processMessage host message bigquery w).2 = S (acks w).
Proof.
  intros Ht Hbq Herr.
  pose proof (transform_keeps console host message (λ _ _ _ _ _, eq_refl) w) as Hc.
  pose proof (transform_keeps acks host message (λ _ _ _ _ _, eq_refl) w) as Ha.
  rewrite processMessage_transform, Ht in *. unfold bind.
  rewrite store_cases. simpl in *. rewrite Hbq, Herr. simpl.
  rewrite Hc, Ha. auto.
Qed.

Lemma readable_rejection_is_logged_once_witness :
  console (processMessage Sample.host (Sample.message Sample.plain_text)
             Sample.rejecting_rows Sample.start).2 = [JStr "invalid"]
  ∧ acks (processMessage Sample.host (Sample.message Sample.plain_text)
            Sample.rejecting_rows Sample.start).2 = 1.
Proof.
  destruct (readable_rejection_is_logged_once Sample.host
              (Sample.message Sample.plain_text) Sample.rejecting_rows
              Sample.start Sample.plain_record Sample.start
              (Rejection
                 (JObj [ ("name", JStr "PartialFailureError");
                         ("errors",
                          JArr [ JObj [ ("error", JStr "invalid");
                                        ("row", JArr [Sample.plain_record]) ] ]) ]))
              (JStr "invalid") eq_refl eq_refl eq_refl) as (_ & Hc & Ha).
  split; assumption.
Defined.

(** ** X4: the cache only grows *)

Lemma resolveFontSource_grows host url w :
  grows w (resolveFontSource host url w).2.
Proof.
  intros k v Hk.
  destruct (ToPropertyKey url) as [key|e] eqn:Hkey.
  - rewrite (resolveFontSource_cases host url key w Hkey).
    destruct (bool_decide (is_Some (lookup_own key (_sourceCache w)))) eqn:Hown;
      simpl; [exact Hk|].
    destruct (inherited key); simpl; [exact Hk|].
    destruct (readable_name _); simpl; [|exact Hk].
    rewrite lookup_own_define_own_ne; [exact Hk|].
    intros ->. apply bool_decide_eq_false in Hown. apply Hown. eauto.
  - rewrite (resolveFontSource_key_throws host url e w Hkey). exact Hk.
Qed.

(** X4.  A call of [resolveFontSource], for any URL, or a run of
    [processMessage], for any message and sink, with which no other
    handler interleaves only adds to the cache: a property the cache has
    before the run it has after the run, with the same value.  (Two calls
    that wait for their requests at the same time are not covered: the
    write after the wait is unconditional.) *)
Theorem cache_entries_are_kept host message bigquery url w k v :
  lookup_own k (_sourceCache w) = Some v →
  lookup_own k (_sourceCache (resolveFontSource host url w).2) = Some v
  ∧ lookup_own k (_sourceCache (processMessage host message bigquery w).2) = Some v.
Proof.
  intros Hk. split; [apply resolveFontSource_grows, Hk|].
  rewrite (processMessage_after_transform
             (λ w', lookup_own k (_sourceCache w')) host message bigquery w)
    by reflexivity.
  destruct (transform_world host message w) as [->|(event & payload & _ & _ & ->)];
    [exact Hk|].
  destruct (resolveSourceName_world host payload w) as [->|(u & _ & _ & ->)];
    [exact Hk|].
  apply resolveFontSource_grows, Hk.
Qed.

Lemma cache_entries_are_kept_witness :
  lookup_own "http://x/y"
    (_sourceCache (resolveFontSource Sample.host (JStr "http://x/empty")
                     Sample.foundry_world).2)
  = Some (JStr "Foo Foundry")
  ∧ lookup_own "http://x/y"
      (_sourceCache (processMessage Sample.host
                       (Sample.message Sample.foundry_text)
                       Sample.unreachable Sample.foundry_world).2)
    = Some (JStr "Foo Foundry").
Proof.
  apply (cache_entries_are_kept Sample.host (Sample.message Sample.foundry_text)
           Sample.unreachable (JStr "http://x/empty") Sample.foundry_world
           "http://x/y" (JStr "Foo Foundry") eq_refl).
Defined.

(** ** X5: requests *)

Lemma resolveFontSource_requests host url w :
  requests (resolveFontSource host url w).2 = requests w
  ∨ requests (resolveFontSource host url w).2 = (requests w ++ [url])%list.
Proof.
  destruct (ToPropertyKey url) as [key|e] eqn:Hkey.
  - rewrite (resolveFontSource_cases host url key w Hkey).
    destruct (bool_decide _ || inherited key); [left; reflexivity|].
    destruct (readable_name _); right; reflexivity.
  - rewrite (resolveFontSource_key_throws host url e w Hkey). left. reflexivity.
Qed.

(** X5.  A run of [processMessage] sends at most one request, and only
    for an event whose payload has a [source_url] property: the request
    is for the value of that property, passed as it is.  A call of
    [resolveFontSource] sends at most one request, for its argument. *)
Theorem at_most_one_request host message bigquery w :
  (∀ url, requests (resolveFontSource host url w).2 = requests w
          ∨ requests (resolveFontSource host url w).2
            = (requests w ++ [url])%list)
  ∧ (requests (processMessage host message bigquery w).2 = requests w
     ∨ ∃ event payload url,
         JSON_parse host (Buffer_toString host (data message)) = Some event
         ∧ get event "data" = Return payload
         ∧ js_in "source_url" payload = Return true
         ∧ get payload "source_url" = Return url
         ∧ requests (processMessage host message bigquery w).2
           = (requests w ++ [url])%list).
Proof.
  split; [intros url; apply resolveFontSource_requests|].
  rewrite (processMessage_after_transform requests host message bigquery w)
    by reflexivity.
  destruct (transform_world host message w)
    as [->|(event & payload & Hparse & Hdata & ->)]; [left; reflexivity|].
  destruct (resolveSourceName_world host payload w)
    as [->|(url & Hin & Hurl & ->)]; [left; reflexivity|].
  destruct (resolveFontSource_requests host url w) as [->| ->];
    [left; reflexivity|].
  right. exists event, payload, url. auto.
Qed.

(** ** X6: a URL that names a member of [Object.prototype] *)

(** X6.  The cache is looked up with [in] on a plain object, so a URL
    that is the name of a member of [Object.prototype] ([constructor],
    [toString], [__proto__], ...) counts as cached from the start:
    [resolveFontSource] sends no request for it, leaves the world as it
    is, and returns the inherited member unless the cache has a property
    of that name itself. *)
Theorem inherited_url_is_not_fetched host (url : string) w :
  inherited url = true →
  ∃ v, resolveFontSource host (JStr url) w = (Return v, w)
       ∧ (lookup_own url (_sourceCache w) = None → v = JNative url).
Proof.
  intros Hinh. rewrite resolveFontSource_string, Hinh, orb_true_r. simpl.
  eexists. split; [reflexivity|]. intros ->. rewrite Hinh. reflexivity.
Qed.

Lemma inherited_url_is_not_fetched_witness :
  resolveFontSource Sample.host (JStr "constructor") Sample.start
  = (Return (JNative "constructor"), Sample.start).
Proof.
  destruct (inherited_url_is_not_fetched Sample.host "constructor" Sample.start
              eq_refl) as (v & H & Hv).
  rewrite H, (Hv eq_refl). reflexivity.
Defined.

(** ** X7: a [source_url] that cannot be made a key *)

(** X7.  [resolveFontSource] looks its argument up in the cache before
    its [try] block.  When the payload's [source_url] is a value that
    cannot be converted to a property key (an object with a [toString]
    member of its own), that lookup throws: [processMessage] throws with
    the world as it was, so nothing is requested or submitted and the
    message is not acknowledged. *)
Theorem unconvertible_source_url_aborts host message bigquery w event ps url e :
  JSON_parse host (Buffer_toString host (data message)) = Some event →
  get event "data" = Return (JObj ps) →
  lookup_own "source_url" ps = Some url →
  ToPropertyKey url = Throw e →
  resolveFontSource host url w = (Throw e, w)
  ∧ processMessage host message bigquery w = (Throw e, w).
Proof.
  intros Hparse Hdata Hurl Hkey.
  pose proof (resolveFontSource_key_throws host url e w Hkey) as Hres.
  split; [exact Hres|].
  unfold processMessage, bind, lift. rewrite Hparse.
  destruct (get_defined event "ip_address" (get_Return_inv _ _ _ Hdata)) as [ip ->].
  rewrite Hdata. unfold resolveSourceName, bind, lift. simpl.
  rewrite Hurl. simpl. rewrite Hres. reflexivity.
Qed.

Lemma unconvertible_source_url_aborts_witness :
  processMessage Sample.host_more (Sample.message Sample.odd_url_text)
    Sample.accepting Sample.start
  = (Throw TypeError, Sample.start).
Proof.
  apply (unconvertible_source_url_aborts Sample.host_more
           (Sample.message Sample.odd_url_text) Sample.accepting Sample.start
           (Sample.event "8.8.8.8"
              [("data", JObj [("source_url", JObj [("toString", JNum "1")])])])
           [("source_url", JObj [("toString", JNum "1")])]
           (JObj [("toString", JNum "1")]) TypeError
           eq_refl eq_refl eq_refl eq_refl).
Defined.

(** ** X8: when flattening throws *)

Lemma cmap_Throw {A B} (f : A → Completion B) l :
  (∃ e, cmap f l = Throw e) ↔ ∃ x e, x ∈ l ∧ f x = Throw e.
Proof.
  induction l as [|x l IH]; simpl.
  - split; [intros [e [=]]|intros (x & e & Hx & _); inversion Hx].
  - destruct (f x) as [y|e] eqn:Hfx; simpl.
    + destruct (cmap f l) as [ys|e]; simpl.
      * split; [intros [e [=]]|].
        intros (x' & e & Hx' & Hf).
        apply elem_of_cons in Hx' as [->|Hx']; [congruence|].
        destruct IH as [_ IH]. destruct IH as [e' [=]]. eauto.
      * split; [|eauto]. intros _.
        destruct IH as [IH _]. destruct IH as (x' & e' & Hx' & Hf); [eauto|].
        exists x', e'. split; [right; exact Hx'|exact Hf].
    + split; [|eauto]. intros _. exists x, e. split; [left|exact Hfx].
Qed.

(** X8.  Flattening a payload object throws exactly when the value of
    one of its keys cannot be converted by [String] (an object with a
    [toString] member of its own, or an array that holds one): one such
    value anywhere in the payload makes the flattening of the whole
    payload throw. *)
Theorem flatten_throws_iff ps :
  (∃ e, flatten (JObj ps) = Throw e)
  ↔ ∃ k v e, k ∈ ps.*1 ∧ lookup_own k ps = Some v ∧ JS_String v = Throw e.
Proof.
  rewrite flatten_object, cmap_Throw. split.
  - intros (k & e & Hk & Hf). rewrite own_keys_Permutation in Hk.
    destruct (lookup_own_elem k ps Hk) as (v & Hv & _).
    simpl in Hf. rewrite Hv in Hf. simpl in Hf.
    unfold null_or_String in Hf. destruct (is_null v); [discriminate Hf|].
    destruct (JS_String v) as [s|e'] eqn:Hs; [discriminate Hf|].
    exists k, v, e'. auto.
  - intros (k & v & e & Hk & Hv & Hs).
    exists k, e. rewrite own_keys_Permutation. split; [exact Hk|].
    simpl. rewrite Hv. simpl. unfold null_or_String.
    destruct v; simpl in *; try discriminate Hs; rewrite ?Hs; reflexivity.
Qed.

(** ** X9: a message that is delivered again *)

Lemma resolveFontSource_again host url w name w1 :
  resolveFontSource host url w = (Return name, w1) →
  requests w1 = requests w ∨ _sourceCache w1 ≠ _sourceCache w →
  resolveFontSource host url w1 = (Return name, w1).
Proof.
  intros Hres Hok.
  destruct (ToPropertyKey url) as [key|e] eqn:Hkey.
  2: { rewrite (resolveFontSource_key_throws host url e w Hkey) in Hres.
       discriminate Hres. }
  rewrite (resolveFontSource_cases host url key w Hkey) in Hres.
  destruct (bool_decide (is_Some (lookup_own key (_sourceCache w))) || inherited key)
    eqn:Hcached.
  - pose proof (f_equal fst Hres) as Hget. pose proof (f_equal snd Hres) as Hw.
    cbn [fst snd] in Hget, Hw. subst w1.
    rewrite (resolveFontSource_cases host url key w Hkey), Hcached, Hget.
    reflexivity.
  - destruct (readable_name _) as [name'|e].
    + injection Hres as <- <-.
      rewrite (resolveFontSource_cases host url key _ Hkey). simpl.
      rewrite lookup_own_define_own. reflexivity.
    + injection Hres as <- <-. simpl in Hok. destruct Hok as [Hreq|Hcache].
      * apply (f_equal length) in Hreq. rewrite length_app in Hreq.
        simpl in Hreq. lia.
      * contradiction.
Qed.

(** X9.  When the record of a message was crafted without a failed
    fetch (no request was sent, or the name that was fetched went into
    the cache), handling the same message again crafts the same record
    out of the cache: no request is sent, the cache stays as it is, and
    the same record is handed to the sink. *)
Theorem redelivery_crafts_the_same_record host message bigquery w processed w1 :
  transform host message w = (Return processed, w1) →
  requests w1 = requests w ∨ _sourceCache w1 ≠ _sourceCache w →
  transform host message w1 = (Return processed, w1)
  ∧ requests (processMessage host message bigquery w1).2 = requests w1
  ∧ _sourceCache (processMessage host message bigquery w1).2 = _sourceCache w1
  ∧ inserted (processMessage host message bigquery w1).2
    = (inserted w1 ++ [JArr [processed]])%list.
Proof.
  intros Ht Hok.
  assert (transform host message w1 = (Return processed, w1)) as Hagain.
  { unfold transform, bind, lift in *.
    destruct (JSON_parse host _) as [event|]; [|discriminate Ht].
    destruct (get event "ip_address") as [ip|]; [|discriminate Ht].
    destruct (get event "data") as [payload|]; [|discriminate Ht].
    assert (∀ payload' w2,
              resolveSourceName host payload w = (Return payload', w2) →
              requests w2 = requests w ∨ _sourceCache w2 ≠ _sourceCache w →
              resolveSourceName host payload w2 = (Return payload', w2)) as Hname.
    { clear. intros payload' w2 Hres Hok.
      unfold resolveSourceName, bind, lift, ret in *.
      destruct (is_null payload); [injection Hres as <- <-; reflexivity|].
      destruct (js_in "source_url" payload) as [[|]|]; [| |discriminate Hres].
      - destruct (get payload "source_url") as [url|]; [|discriminate Hres].
        destruct (resolveFontSource host url w) as [[name|e] w3] eqn:Hfont;
          [|discriminate Hres].
        injection Hres as <- <-.
        rewrite (resolveFontSource_again host url w name w3 Hfont Hok).
        reflexivity.
      - injection Hres as <- <-. reflexivity. }
    destruct (resolveSourceName host payload w) as [[payload'|e] w2] eqn:Hres;
      [|discriminate Ht].
    destruct (flatten payload') as [eventData|] eqn:Hflat; [|discriminate Ht].
    destruct (craft host event _ eventData) as [p|] eqn:Hcraft; [|discriminate Ht].
    injection Ht as <- <-.
    rewrite (Hname payload' w2 eq_refl Hok), Hflat, Hcraft. reflexivity. }
  split; [exact Hagain|].
  rewrite (processMessage_after_transform requests host message bigquery w1)
    by reflexivity.
  rewrite (processMessage_after_transform _sourceCache host message bigquery w1)
    by reflexivity.
  rewrite Hagain. split; [reflexivity|]. split; [reflexivity|].
  rewrite processMessage_transform, Hagain. unfold bind.
  pose proof (store_inserted bigquery processed w1) as Hs.
  destruct (store bigquery processed w1) as [[[]|e] w2]; exact Hs.
Qed.

Lemma redelivery_crafts_the_same_record_witness :
  transform Sample.host (Sample.message Sample.foundry_text) Sample.foundry_world
  = (Return Sample.foundry_record, Sample.foundry_world)
  ∧ requests (processMessage Sample.host (Sample.message Sample.foundry_text)
                Sample.unreachable Sample.foundry_world).2
    = [JStr "http://x/y"].
Proof.
  destruct (redelivery_crafts_the_same_record Sample.host
              (Sample.message Sample.foundry_text) Sample.unreachable
              Sample.start Sample.foundry_record Sample.foundry_world eq_refl)
    as (H & Hreq & _).
  - right. discriminate.
  - split; assumption.
Defined.

(** ** X10: the record of an event that resolves *)

Lemma get_own fields k :
  inherited k = false → get (JObj fields) k = Return (own_or_undefined fields k).
Proof.
  intros Hinh. unfold own_or_undefined. simpl. rewrite Hinh.
  destruct (lookup_own k fields); reflexivity.
Qed.

(** X10.  For an event object whose address the database knows and
    whose country code has an entry in the table, the crafted record
    copies the nine members [server_timestamp] ... [python_version] of
    the event as they are ([undefined] for one the event lacks), takes
    [geo_country_code] and [geo_region] from the lookup, joins the
    coordinates with a comma and a space, and takes as [geo_country] the
    [name] of the table entry, or [null] when that name is missing or
    falsy. *)
Theorem resolved_event_record
    host message w fields g entry name payload' w1 eventData :
  JSON_parse host (Buffer_toString host (data message)) = Some (JObj fields) →
  geoip_lookup host (own_or_undefined fields "ip_address") = Some g →
  lookup_own (country g) (iso3166 host) = Some entry →
  get entry "name" = Return name →
  resolveSourceName host (own_or_undefined fields "data") w
  = (Return payload', w1) →
  flatten payload' = Return eventData →
  transform host message w =
  (Return
     (JObj [ ("server_timestamp", own_or_undefined fields "server_timestamp");
             ("timestamp", own_or_undefined fields "timestamp");
             ("geo_country_code", JStr (country g));
             ("geo_country", if truthy name then name else JNull);
             ("geo_region", JStr (region g));
             ("geo_coords", JStr (fst (ll g) ++ ", " ++ snd (ll g)));
             ("status_code", own_or_undefined fields "status_code");
             ("event_type", own_or_undefined fields "event_type");
             ("execution_time", own_or_undefined fields "execution_time");
             ("fonty_version", own_or_undefined fields "fonty_version");
             ("os_family", own_or_undefined fields "os_family");
             ("os_version", own_or_undefined fields "os_version");
             ("python_version", own_or_undefined fields "python_version");
             ("event_data", JArr eventData) ]),
   w1).
Proof.
  intros Hparse Hgeo Hentry Hname Hres Hflat.
  unfold transform, bind, lift. rewrite Hparse.
  rewrite !get_own by reflexivity. rewrite Hgeo, Hres, Hflat.
  unfold craft. rewrite !get_own by reflexivity.
  cbn [js_of_lookup cbind].
  change (get (JObj [("country", JStr (country g)); ("region", JStr (region g));
                     ("ll", JArr [JNum (ll g).1; JNum (ll g).2])]) "country")
    with (Return (A:=JsValue) (JStr (country g))).
  cbn [cbind ToPropertyKey JS_String].
  assert (get (JObj (iso3166 host)) (country g) = Return entry) as ->.
  { simpl. rewrite Hentry. reflexivity. }
  cbn [cbind]. rewrite Hname. reflexivity.
Qed.

Lemma resolved_event_record_witness :
  transform Sample.host (Sample.message Sample.full_text) Sample.start
  = (Return Sample.full_record, Sample.start).
Proof.
  apply (resolved_event_record Sample.host (Sample.message Sample.full_text)
           Sample.start
           [ ("ip_address", JStr "8.8.8.8");
             ("server_timestamp", JNum "1519862400");
             ("timestamp", JStr "2018-03-01T00:00:00Z");
             ("status_code", JNum "0");
             ("event_type", JStr "install");
             ("execution_time", JNum "0.53");
             ("fonty_version", JStr "0.1.5");
             ("os_family", JStr "Darwin");
             ("os_version", JStr "17.4.0");
             ("python_version", JStr "3.6.4");
             ("data", JObj [ ("font", JArr [ JStr "Lato";
                                             JObj [("weight", JNum "400")] ]) ]) ]
           {| country := "US"; region := "CA"; ll := ("37.386", "-122.0838") |}
           (JObj [("name", JStr "United States of America")])
           (JStr "United States of America")
           (JObj [ ("font", JArr [ JStr "Lato"; JObj [("weight", JNum "400")] ]) ])
           Sample.start
           [ JObj [ ("key", JStr "font");
                    ("value", JStr "Lato,[object Object]") ] ]
           eq_refl eq_refl eq_refl eq_refl eq_refl eq_refl).
Defined.

(** ** X11: what the record holds of the address *)

Lemma craft_ext host event1 event2 geo eventData :
  (∀ k, k ∈ passthrough → get event1 k = get event2 k) →
  craft host event1 geo eventData = craft host event2 geo eventData.
Proof.
  intros H. unfold craft.
  rewrite (H "server_timestamp"), (H "timestamp"), (H "status_code"),
    (H "event_type"), (H "execution_time"), (H "fonty_version"),
    (H "os_family"), (H "os_version"), (H "python_version");
    [reflexivity|unfold passthrough; repeat constructor..].
Qed.

Lemma own_or_undefined_other fields k v k' :
  k ≠ k' →
  own_or_undefined (define_own k v fields) k' = own_or_undefined fields k'.
Proof.
  intros Hne. unfold own_or_undefined.
  rewrite lookup_own_define_own_ne by exact Hne. reflexivity.
Qed.

(** X11.  The address reaches the record through the lookup only: two
    events that differ in nothing but [ip_address], with addresses for
    which the database gives the same answer, are crafted into the same
    record and handled in the same way. *)
Theorem record_depends_on_address_through_lookup
    host message1 message2 bigquery w fields ip :
  JSON_parse host (Buffer_toString host (data message1)) = Some (JObj fields) →
  JSON_parse host (Buffer_toString host (data message2))
  = Some (JObj (define_own "ip_address" ip fields)) →
  geoip_lookup host ip
  = geoip_lookup host (own_or_undefined fields "ip_address") →
  transform host message1 w = transform host message2 w
  ∧ processMessage host message1 bigquery w
    = processMessage host message2 bigquery w.
Proof.
  intros Hparse1 Hparse2 Hgeo.
  assert (transform host message1 w = transform host message2 w) as Ht.
  { unfold transform, bind, lift. rewrite Hparse1, Hparse2.
    rewrite !get_own by reflexivity.
    assert (own_or_undefined (define_own "ip_address" ip fields) "ip_address" = ip)
      as ->.
    { unfold own_or_undefined. rewrite lookup_own_define_own. reflexivity. }
    rewrite (own_or_undefined_other fields "ip_address" ip "data") by discriminate.
    rewrite Hgeo.
    destruct (resolveSourceName host _ w) as [[payload'|e] w1]; [|reflexivity].
    destruct (flatten payload') as [eventData|]; [|reflexivity].
    rewrite (craft_ext host (JObj fields)
               (JObj (define_own "ip_address" ip fields))); [reflexivity|].
    intros k Hk. unfold passthrough in Hk.
    rewrite !elem_of_cons, elem_of_nil in Hk.
    assert ("ip_address" ≠ k ∧ inherited k = false) as [Hne Hinh].
    { repeat destruct Hk as [->|Hk]; try (split; [discriminate|reflexivity]).
      contradiction. }
    rewrite !get_own by exact Hinh.
    rewrite own_or_undefined_other by exact Hne. reflexivity. }
  split; [exact Ht|]. rewrite !processMessage_transform, Ht. reflexivity.
Qed.

Lemma record_depends_on_address_through_lookup_witness :
  processMessage Sample.host_more (Sample.message Sample.plain_text)
    Sample.accepting Sample.start
  = processMessage Sample.host_more (Sample.message Sample.dns_text)
      Sample.accepting Sample.start.
Proof.
  apply (record_depends_on_address_through_lookup Sample.host_more
           (Sample.message Sample.plain_text) (Sample.message Sample.dns_text)
           Sample.accepting Sample.start
           [("ip_address", JStr "8.8.8.8"); ("data", JNull)] (JStr "8.8.4.4")
           eq_refl eq_refl eq_refl).
Defined.

(** ** X12: the entry for the source name, by what the request gave *)



(** ** X13, X14: events and payloads that are not objects *)

(** X13.  JSON that parses to anything but an object ([null], a number,
    a string, a boolean, an array) is not an event: [processMessage]
    throws a [TypeError], at the first member it reads for [null] and at
    the [in] test of the missing payload otherwise, and leaves the world
    as it was, the message unacknowledged. *)
Theorem non_object_event_throws host message bigquery w event :
  JSON_parse host (Buffer_toString host (data message)) = Some event →
  (∀ fields, event ≠ JObj fields) →
  processMessage host message bigquery w = (Throw TypeError, w).
Proof.
  intros Hparse Hnot. unfold processMessage, bind, lift. rewrite Hparse.
  destruct event as [| |b|n|s|xs|fields|f]; try reflexivity.
  exfalso. apply (Hnot fields). reflexivity.
Qed.

Lemma non_object_event_throws_witness :
  processMessage Sample.host_more (Sample.message Sample.null_text)
    Sample.accepting Sample.start
  = (Throw TypeError, Sample.start).
Proof.
  apply (non_object_event_throws Sample.host_more
           (Sample.message Sample.null_text) Sample.accepting Sample.start
           JNull eq_refl).
  intros fields. discriminate.
Defined.

(** X14.  A payload that is a primitive other than [null] (a string, a
    number, a boolean, or no payload at all) cannot be tested with [in]:
    [processMessage] throws a [TypeError] with the world as it was, so
    nothing is requested or submitted and the message is not
    acknowledged. *)
Theorem primitive_payload_throws host message bigquery w event payload :
  JSON_parse host (Buffer_toString host (data message)) = Some event →
  get event "data" = Return payload →
  scalar payload = true →
  payload ≠ JNull →
  processMessage host message bigquery w = (Throw TypeError, w).
Proof.
  intros Hparse Hdata Hscalar Hnull. unfold processMessage, bind, lift.
  rewrite Hparse.
  destruct (get_defined event "ip_address" (get_Return_inv _ _ _ Hdata)) as [ip ->].
  rewrite Hdata.
  destruct payload; try discriminate Hscalar; try reflexivity. contradiction.
Qed.

Lemma primitive_payload_throws_witness :
  processMessage Sample.host_more (Sample.message Sample.number_payload_text)
    Sample.accepting Sample.start
  = (Throw TypeError, Sample.start).
Proof.
  apply (primitive_payload_throws Sample.host_more
           (Sample.message Sample.number_payload_text) Sample.accepting
           Sample.start (Sample.event "8.8.8.8" [("data", JNum "5")]) (JNum "5")
           eq_refl eq_refl eq_refl).
  discriminate.
Defined.

(** ** X15: what is logged *)

(** X15.  [processMessage] logs at most one value, and only for a
    rejection of the sink: either the console is as it was, or the record
    was crafted, the sink rejected that record, and the value logged is
    the [errors[0].error] of its error.  A message that fails before the
    sink (parsing, geo data, payload) is logged nowhere. *)
Theorem only_rejections_are_logged host message bigquery w :
  console (processMessage host message bigquery w).2 = console w
  ∨ ∃ processed w1 e error,
      transform host message w = (Return processed, w1)
      ∧ bigquery "fonty_telemetry" "events" (JArr [processed]) = Throw e
      ∧ first_error (caught e) = Return error
      ∧ console (processMessage host message bigquery w).2
        = (console w ++ [error])%list.
Proof.
  pose proof (transform_keeps console host message (λ _ _ _ _ _, eq_refl) w) as Hc.
  rewrite processMessage_transform.
  destruct (transform host message w) as [[processed|e] w1] eqn:Ht; simpl in Hc;
    [|left; exact Hc].
  unfold bind. rewrite store_cases. simpl.
  destruct (bigquery _ _ _) as [[]|e] eqn:Hbq; simpl; [left; exact Hc|].
  destruct (first_error (caught e)) as [error|e'] eqn:Herr; simpl;
    [|left; exact Hc].
  right. exists processed, w1, e, error. rewrite Hc. auto.
Qed.

(** ** X16: what is thrown *)

Lemma only_TypeError_Return {A} (a : A) : only_TypeError (Return a).
Proof. intros e H. discriminate H. Qed.

Lemma only_TypeError_Throw {A} : only_TypeError (@Throw A TypeError).
Proof. intros e [= <-]. reflexivity. Qed.

Lemma only_TypeError_cbind {A B} (c : Completion A) (k : A → Completion B) :
  only_TypeError c → (∀ a, only_TypeError (k a)) → only_TypeError (cbind c k).
Proof.
  intros Hc Hk e. destruct c as [a|e']; simpl.
  - apply Hk.
  - intros [= <-]. apply Hc. reflexivity.
Qed.

Lemma only_TypeError_cmap {A B} (f : A → Completion B) l :
  (∀ x, x ∈ l → only_TypeError (f x)) → only_TypeError (cmap f l).
Proof.
  induction l as [|x l IH]; simpl; intros Hf.
  - apply only_TypeError_Return.
  - apply only_TypeError_cbind; [apply Hf; left|]. intros y.
    apply only_TypeError_cbind; [|intros; apply only_TypeError_Return].
    apply IH. intros z Hz. apply Hf. right. exact Hz.
Qed.

Lemma only_TypeError_get v k : only_TypeError (get v k).
Proof. destruct v; simpl; intros e [= <-]; reflexivity. Qed.

Lemma only_TypeError_js_in k v : only_TypeError (js_in k v).
Proof. destruct v; simpl; intros e [= <-]; reflexivity. Qed.

Lemma only_TypeError_Object_keys v : only_TypeError (Object_keys v).
Proof. destruct v; simpl; intros e [= <-]; reflexivity. Qed.

Lemma only_TypeError_JS_String : ∀ v, only_TypeError (JS_String v).
Proof.
  fix IH 1. intros [| |b|n|s|xs|ps|f]; simpl;
    try (intros e H; discriminate H).
  - apply only_TypeError_cbind; [|intros; apply only_TypeError_Return].
    induction xs as [|x xs IHxs]; simpl.
    + apply only_TypeError_Return.
    + apply only_TypeError_cbind.
      * pose proof (IH x) as Hx.
        destruct x; try apply only_TypeError_Return; exact Hx.
      * intros y. apply only_TypeError_cbind;
          [exact IHxs|intros; apply only_TypeError_Return].
  - destruct (lookup_own "toString" ps);
      [apply only_TypeError_Throw|apply only_TypeError_Return].
Qed.

Lemma only_TypeError_null_or_String v : only_TypeError (null_or_String v).
Proof.
  unfold null_or_String. destruct (is_null v); [apply only_TypeError_Return|].
  apply only_TypeError_cbind; [apply only_TypeError_JS_String|].
  intros; apply only_TypeError_Return.
Qed.

Lemma only_TypeError_flatten payload : only_TypeError (flatten payload).
Proof.
  unfold flatten. destruct (is_null payload); [apply only_TypeError_Return|].
  apply only_TypeError_cbind; [apply only_TypeError_Object_keys|]. intros keys.
  apply only_TypeError_cmap. intros k _.
  apply only_TypeError_cbind; [apply only_TypeError_get|]. intros v.
  apply only_TypeError_cbind; [apply only_TypeError_null_or_String|].
  intros; apply only_TypeError_Return.
Qed.

Lemma only_TypeError_craft host event geo eventData :
  only_TypeError (craft host event geo eventData).
Proof.
  unfold craft, ToPropertyKey.
  repeat first
    [ apply only_TypeError_Return
    | apply only_TypeError_get
    | apply only_TypeError_JS_String
    | apply only_TypeError_cbind; [|intros ?] ].
Qed.

Lemma only_TypeError_first_error err : only_TypeError (first_error err).
Proof.
  unfold first_error.
  repeat first
    [ apply only_TypeError_get
    | apply only_TypeError_cbind; [|intros ?] ].
Qed.

Section ThrowsOnly.
Context (P : Exception → Prop).

Lemma throws_only_ret {A} (a : A) : throws_only P (ret a).
Proof. intros w e w' H. discriminate H. Qed.

Lemma throws_only_lift {A} (c : Completion A) :
  (∀ e, c = Throw e → P e) → throws_only P (lift c).
Proof. intros Hc w e w' [= H _]. apply Hc, H. Qed.

Lemma throws_only_bind {A B} (m : M A) (k : A → M B) :
  throws_only P m → (∀ a, throws_only P (k a)) → throws_only P (bind m k).
Proof.
  intros Hm Hk w e w'. unfold bind.
  destruct (m w) as [[a|e'] w1] eqn:Hmw.
  - apply Hk.
  - intros [= <- _]. apply (Hm _ _ _ Hmw).
Qed.

Lemma throws_only_try_catch {A} (m : M A) (h : Exception → M A) :
  (∀ e, throws_only P (h e)) → throws_only P (try_catch m h).
Proof.
  intros Hh w e w'. unfold try_catch.
  destruct (m w) as [[a|e'] w1]; [discriminate|apply Hh].
Qed.

Lemma throws_only_if {A} (b : bool) (m1 m2 : M A) :
  throws_only P m1 → throws_only P m2 → throws_only P (if b then m1 else m2).
Proof. destruct b; auto. Qed.
End ThrowsOnly.

Lemma resolveFontSource_throws host url :
  throws_only (λ e, e = TypeError) (resolveFontSource host url).
Proof.
  unfold resolveFontSource.
  apply throws_only_bind;
    [apply throws_only_lift, only_TypeError_JS_String|]. intros key.
  apply throws_only_bind; [intros w e w' H; discriminate H|]. intros cache.
  apply throws_only_bind; [apply throws_only_lift, only_TypeError_js_in|].
  intros cached. apply throws_only_if.
  - apply throws_only_lift, only_TypeError_get.
  - apply throws_only_try_catch. intros _. apply throws_only_ret.
Qed.

Lemma resolveSourceName_throws host payload :
  throws_only (λ e, e = TypeError) (resolveSourceName host payload).
Proof.
  unfold resolveSourceName. apply throws_only_if; [apply throws_only_ret|].
  apply throws_only_bind; [apply throws_only_lift, only_TypeError_js_in|].
  intros has. apply throws_only_if; [|apply throws_only_ret].
  apply throws_only_bind; [apply throws_only_lift, only_TypeError_get|].
  intros url. apply throws_only_bind; [apply resolveFontSource_throws|].
  intros name. apply throws_only_ret.
Qed.

(** X16.  The rejections of the collaborators do not leave
    [processMessage]: a rejected request is caught in
    [resolveFontSource] and a rejection of the sink in the [catch] of
    [processMessage], so what [processMessage] or [resolveFontSource]
    throws is never the error a request or the sink was rejected with;
    it is an error the engine raised in one of their own steps. *)
Theorem rejections_are_not_propagated host message bigquery w e w' :
  processMessage host message bigquery w = (Throw e, w') →
  (∀ reason, e ≠ Rejection reason)
  ∧ ∀ url w0 e0 w1 reason,
      resolveFontSource host url w0 = (Throw e0, w1) → e0 ≠ Rejection reason.
Proof.
  intros H. split.
  2: { intros url w0 e0 w1 reason H0.
       rewrite (resolveFontSource_throws host url w0 e0 w1 H0). discriminate. }
  revert w e w' H.
  change (throws_only (λ e, ∀ reason, e ≠ Rejection reason)
            (processMessage host message bigquery)).
  assert (∀ A (c : Completion A), only_TypeError c →
            throws_only (λ e, ∀ reason, e ≠ Rejection reason) (lift c)) as Hlift.
  { intros A c Hc. apply throws_only_lift. intros e He reason.
    rewrite (Hc e He). discriminate. }
  assert (∀ A (m : M A), throws_only (λ e, e = TypeError) m →
            throws_only (λ e, ∀ reason, e ≠ Rejection reason) m) as Hweak.
  { intros A m Hm w e w' He reason. rewrite (Hm _ _ _ He). discriminate. }
  unfold processMessage.
  apply throws_only_bind.
  { apply throws_only_lift. intros e.
    destruct (JSON_parse host _); [discriminate|]. intros [= <-] reason.
    discriminate. }
  intros event.
  apply throws_only_bind; [apply Hlift, only_TypeError_get|]. intros ip.
  apply throws_only_bind; [apply Hlift, only_TypeError_get|]. intros payload.
  apply throws_only_bind; [apply Hweak, resolveSourceName_throws|].
  intros payload'.
  apply throws_only_bind; [apply Hlift, only_TypeError_flatten|].
  intros eventData.
  apply throws_only_bind; [apply Hlift, only_TypeError_craft|].
  intros processed.
  apply throws_only_bind; [|intros _ w e w' He; discriminate He].
  unfold store. apply throws_only_try_catch. intros e.
  apply throws_only_bind; [apply Hlift, only_TypeError_first_error|].
  intros error w e' w' He. discriminate He.
Qed.

Lemma rejections_are_not_propagated_witness :
  processMessage Sample.host (Sample.message Sample.plain_text)
    Sample.unreachable Sample.start
  = (Throw TypeError, with_rows (JArr [Sample.plain_record]) Sample.start)
  ∧ TypeError ≠ Rejection (JObj [("message", JStr "socket hang up")]).
Proof.
  split; [reflexivity|].
  apply (rejections_are_not_propagated Sample.host
           (Sample.message Sample.plain_text) Sample.unreachable Sample.start
           TypeError (with_rows (JArr [Sample.plain_record]) Sample.start)
           eq_refl).
Defined.
